(** * layout2pdf: a shallow embedding of [main.cpp] and its verified properties

    The program reads a line-oriented layout file, parses it into pages of
    styled lines ([ParseLayoutFile]), lays every page out as a PDF content
    stream ([BuildPageContent]) and assembles the PDF objects, the
    cross-reference table and the trailer ([main]).

    Conventions of the embedding.
    - [std::string] is [string]; [push_back] and [operator<<] are [++].
    - [std::vector<T>] is [list T]; [push_back x] is [l ++ [x]].  Sizes and
      indices of vectors ([std::size_t], and the [int] loop counters that
      range over them) are [nat]: vectors of 2^31 elements and more are
      outside the model.
    - The other [int] values are [Z], reduced to 32 bits where the program
      computes them: the font size read from the text, and the length of
      a content stream, which a long page takes beyond an [int].
    - [float] is binary32 with round-to-nearest-even.  Every float of the
      program is a multiple of 1/4, so a float is held as its count of
      quarters (see [f32]).
    - The character classification of [<cctype>] is that of the "C" locale,
      the only one the program runs in. *)

From Stdlib Require Import ZArith List Bool Lia Ascii String Permutation.
Import ListNotations.

Open Scope string_scope.
Open Scope bool_scope.

(* ------------------------------------------------------------------ *)
(** ** Characters and strings of the C++ library *)

(** [std::isspace] in the "C" locale: space, and the controls 9 to 13. *)
Definition isspace (c : ascii) : bool :=
  let n := nat_of_ascii c in
  Nat.eqb n 32 || (Nat.leb 9 n && Nat.leb n 13).

(** [std::isdigit]. *)
Definition isdigit (c : ascii) : bool :=
  let n := nat_of_ascii c in
  Nat.leb 48 n && Nat.leb n 57.

(** [std::tolower] in the "C" locale. *)
Definition tolower (c : ascii) : ascii :=
  let n := nat_of_ascii c in
  if Nat.leb 65 n && Nat.leb n 90 then ascii_of_nat (n + 32) else c.

(** [s[i]]; the program only indexes inside the string. *)
Definition char_at (s : string) (i : nat) : ascii :=
  match String.get i s with
  | Some c => c
  | None => zero
  end.

(** [s.empty()]. *)
Definition empty (s : string) : bool :=
  match s with
  | EmptyString => true
  | String _ _ => false
  end.

(** [s.find(pat)]: the position of the first occurrence, [None] for [npos]. *)
Definition find (pat s : string) : option nat := String.index 0 pat s.

(** [s.substr(pos)]: the rest of the string from [pos]. *)
Definition substr_from (pos : nat) (s : string) : string :=
  String.substring pos (String.length s - pos) s.

(** The character of a decimal digit. *)
Definition digit_char (d : Z) : ascii := ascii_of_nat (48 + Z.to_nat d).

(** The decimal digits of [n], written from the last one backwards in
    front of [acc]; [fuel] bounds their number. *)
Fixpoint show_digits (fuel : nat) (n : Z) (acc : string) : string :=
  match fuel with
  | O => acc
  | S fuel' =>
      let acc1 := String (digit_char (n mod 10)) acc in
      if (n <? 10)%Z then acc1 else show_digits fuel' (n / 10) acc1
  end.

(** [operator<<] for an [int] or a [long]: the decimal digits, a minus sign
    before a negative number.  A number has no more digits than bits. *)
Definition show_int (z : Z) : string :=
  if (z <? 0)%Z
  then String "-" (show_digits (S (Z.to_nat (Z.log2 (- z)))) (- z) "")
  else show_digits (S (Z.to_nat (Z.log2 z))) z "".

Definition show_nat (n : nat) : string := show_int (Z.of_nat n).

(* ------------------------------------------------------------------ *)
(** ** Helpers: trimming, lowercase, splitting *)

(** The first loop of [Trim]: [start] stops at the first character that is
    not white space. *)
Fixpoint trim_start (s : string) : nat :=
  match s with
  | EmptyString => 0
  | String c s' => if isspace c then S (trim_start s') else 0
  end.

(** The second loop of [Trim]: [end] moves down while [end > start] and
    [s[end - 1]] is white space. *)
Fixpoint trim_end (s : string) (start end_ : nat) : nat :=
  match end_ with
  | O => O
  | S e =>
      if Nat.ltb start end_ && isspace (char_at s e)
      then trim_end s start e
      else end_
  end.

Definition Trim (s : string) : string :=
  let start := trim_start s in
  let end_ := trim_end s start (String.length s) in
  String.substring start (end_ - start) s.

Fixpoint ToLower (s : string) : string :=
  match s with
  | EmptyString => EmptyString
  | String c s' => String (tolower c) (ToLower s')
  end.

(** The loop of [SplitByComma] over the characters of [s], on the two locals
    [parts] and [current]. *)
Fixpoint SplitByComma_loop (s : string) (parts : list string)
  (current : string) : list string * string :=
  match s with
  | EmptyString => (parts, current)
  | String c s' =>
      if Ascii.eqb c "," then SplitByComma_loop s' (parts ++ [Trim current]) ""
      else SplitByComma_loop s' parts (current ++ String c "")
  end.

Definition SplitByComma (s : string) : list string :=
  let '(parts, current) := SplitByComma_loop s [] "" in
  if negb (empty current) then parts ++ [Trim current] else parts.

(** Escape the characters that are special in PDF literal strings. *)
Fixpoint EscapePdfString_loop (s out : string) : string :=
  match s with
  | EmptyString => out
  | String c s' =>
      let out1 :=
        if Ascii.eqb c "(" || Ascii.eqb c ")" || Ascii.eqb c "\"
        then out ++ "\" else out in
      EscapePdfString_loop s' (out1 ++ String c "")
  end.

Definition EscapePdfString (s : string) : string := EscapePdfString_loop s "".

(* ------------------------------------------------------------------ *)
(** ** Machine numbers *)

Module Int32.

Definition modulus : Z := 2 ^ 32.
Definition max_int : Z := 2 ^ 31 - 1.
Definition min_int : Z := - 2 ^ 31.

(** The [int] a mathematical integer is reduced to. *)
Definition wrap (z : Z) : Z :=
  let r := (z mod modulus)%Z in
  if (r <=? max_int)%Z then r else (r - modulus)%Z.

Definition add (a b : Z) : Z := wrap (a + b).

End Int32.

(** [std::atoi]: white space is skipped, then an optional sign and the
    longest run of digits are read.  As in glibc, [atoi] is [strtol] cut to
    an [int]: a value outside [long] is first clamped to [LONG_MIN] or
    [LONG_MAX]. *)
Fixpoint skip_spaces (s : string) : string :=
  match s with
  | EmptyString => EmptyString
  | String c s' => if isspace c then skip_spaces s' else s
  end.

Fixpoint read_digits (s : string) (acc : Z) : Z :=
  match s with
  | EmptyString => acc
  | String c s' =>
      if isdigit c
      then read_digits s' (10 * acc + (Z.of_nat (nat_of_ascii c) - 48))%Z
      else acc
  end.

Definition strtol (s : string) : Z :=
  let v :=
    match skip_spaces s with
    | String "-" s' => (- read_digits s' 0)%Z
    | String "+" s' => read_digits s' 0
    | s' => read_digits s' 0
    end in
  Z.max (- 2 ^ 63) (Z.min (2 ^ 63 - 1) v).

Definition atoi (s : string) : Z := Int32.wrap (strtol s).

(** Rounding to the nearest integer quotient, ties to the even one. *)
Definition round_half_even (num den : Z) : Z :=
  let q := (num / den)%Z in
  let r := (num mod den)%Z in
  if (2 * r <? den)%Z then q
  else if (den <? 2 * r)%Z then (q + 1)%Z
  else if Z.even q then q else (q + 1)%Z.

Module F32.

(** A binary32 number that is a multiple of 1/4, as its count of
    quarters.  The program never leaves that grid: its floats are sums and
    differences of whole numbers and of halves, and the halves of those. *)
Record f32 : Set := of_quarters { quarters : Z }.

(** Rounding to a 24-bit significand, to nearest, ties to even.  It acts
    on the count of quarters as on the number itself, the scale being a
    power of two; neither overflow nor underflow are in reach of the
    program. *)
Definition round24 (z : Z) : Z :=
  let a := Z.abs z in
  if (a <? 2 ^ 24)%Z then z
  else
    let u := (2 ^ (Z.log2 a - 23))%Z in
    (Z.sgn z * (round_half_even a u * u))%Z.

(** A literal or constant that is a whole number, such as [612.0f]. *)
Definition whole (n : Z) : f32 := of_quarters (4 * n).

(** [0.5f]. *)
Definition one_half : f32 := of_quarters 2.

(** [static_cast<float>(n)] for an [int] or a [std::size_t]. *)
Definition of_int (n : Z) : f32 := of_quarters (round24 (4 * n)).

Definition add (a b : f32) : f32 :=
  of_quarters (round24 (quarters a + quarters b)).

Definition sub (a b : f32) : f32 :=
  of_quarters (round24 (quarters a - quarters b)).

(** The product, for factors whose product is on the grid (in the program
    one factor is whole and the other a multiple of 1/2). *)
Definition mul (a b : f32) : f32 :=
  of_quarters (round24 (quarters a * quarters b) / 4).

(** [a / 2.0f], for [a] a multiple of 1/2. *)
Definition div2 (a : f32) : f32 := of_quarters (quarters a / 2).

Definition ltb (a b : f32) : bool := (quarters a <? quarters b)%Z.

(** [k] decimal digits of [n], zeros in front. *)
Fixpoint digits_of (k : nat) (n : Z) : string :=
  match k with
  | O => ""
  | S k' => digits_of k' (n / 10) ++ show_int (n mod 10)
  end.

(** The fraction [n / 10^k] without its trailing zeros, with its point;
    nothing when it is zero. *)
Fixpoint fraction (k : nat) (n : Z) : string :=
  match k with
  | O => ""
  | S k' =>
      if (n mod 10 =? 0)%Z then fraction k' (n / 10)
      else "." ++ digits_of k n
  end.

(** [operator<<] for a [float]: the conversion [%g] with precision 6. *)
Definition show (x : f32) : string :=
  let q := quarters x in
  let a := Z.abs q in
  if (a =? 0)%Z then "0"
  else
    let sign := if (q <? 0)%Z then "-" else "" in
    let X0 :=
      if (a <? 4)%Z then (-1)%Z
      else (Z.of_nat (String.length (show_int (a / 4))) - 1)%Z in
    let D0 :=
      if (X0 <=? 5)%Z then round_half_even (a * 10 ^ (5 - X0)) 4
      else round_half_even a (4 * 10 ^ (X0 - 5)) in
    let '(D, X) :=
      if (D0 =? 10 ^ 6)%Z then (10 ^ 5, X0 + 1)%Z else (D0, X0) in
    if (X <? 6)%Z then
      let k := Z.to_nat (5 - X) in
      sign ++ show_int (D / 10 ^ Z.of_nat k)
           ++ fraction k (D mod 10 ^ Z.of_nat k)
    else
      sign ++ show_int (D / 10 ^ 5) ++ fraction 5 (D mod 10 ^ 5)
           ++ "e+" ++ (if (X <? 10)%Z then "0" else "") ++ show_int X.

End F32.

(* ------------------------------------------------------------------ *)
(** ** Layout structs *)

Inductive TextAlign : Set := ALIGN_LEFT | ALIGN_CENTER | ALIGN_RIGHT.

Record LineSpec : Set := mkLineSpec {
  text : string;
  fontSize : Z;
  r : F32.f32;
  g : F32.f32;
  b : F32.f32;
  align : TextAlign;
  bottomAnchor : bool   (* true = anchor near bottom of page *)
}.

Record PageSpec : Set := mkPageSpec { lines : list LineSpec }.

(** Map color names to RGB; the three results are the reference parameters
    [r], [g] and [b]. *)
Definition ColorFromName (name : string) : F32.f32 * F32.f32 * F32.f32 :=
  let n := ToLower (Trim name) in
  if n =? "black" then (F32.whole 0, F32.whole 0, F32.whole 0)
  else if n =? "white" then (F32.whole 1, F32.whole 1, F32.whole 1)
  else if n =? "red" then (F32.whole 1, F32.whole 0, F32.whole 0)
  else if n =? "green" then (F32.whole 0, F32.whole 1, F32.whole 0)
  else if n =? "blue" then (F32.whole 0, F32.whole 0, F32.whole 1)
  else if (n =? "gray") || (n =? "grey")
       then (F32.one_half, F32.one_half, F32.one_half)
  else (* default to black *) (F32.whole 0, F32.whole 0, F32.whole 0).

(** Map alignment name. *)
Definition AlignFromName (name : string) : TextAlign :=
  let n := ToLower (Trim name) in
  if n =? "center" then ALIGN_CENTER
  else if n =? "right" then ALIGN_RIGHT
  else ALIGN_LEFT.

(* ------------------------------------------------------------------ *)
(** ** Parse layout file into pages/lines *)

(** The locals of [ParseLayoutFile] that the loop over the lines changes,
    with the output parameter [pages]. *)
Record ParseState : Set := mkParseState {
  pages : list PageSpec;
  inPage : bool;
  currentPage : PageSpec;
  currentFontSize : Z;
  currentR : F32.f32;
  currentG : F32.f32;
  currentB : F32.f32;
  currentAlign : TextAlign;
  currentBottomAnchor : bool
}.

(** The locals as they are declared before the loop. *)
Definition initial_state (pages0 : list PageSpec) : ParseState :=
  mkParseState pages0 false (mkPageSpec [])
    12 (F32.whole 0) (F32.whole 0) (F32.whole 0) ALIGN_LEFT false.

(** The [LineSpec ls] either branch fills in from the current style. *)
Definition snapshot (txt : string) (st : ParseState) : LineSpec :=
  mkLineSpec txt (currentFontSize st)
    (currentR st) (currentG st) (currentB st)
    (currentAlign st) (currentBottomAnchor st).

(** [currentPage.lines.push_back(ls)]. *)
Definition push_line (st : ParseState) (ls : LineSpec) : ParseState :=
  mkParseState (pages st) (inPage st)
    (mkPageSpec (lines (currentPage st) ++ [ls]))
    (currentFontSize st) (currentR st) (currentG st) (currentB st)
    (currentAlign st) (currentBottomAnchor st).

(** Closing tag: [pages.push_back(currentPage); currentPage.lines.clear();
    inPage = false]. *)
Definition close_page (st : ParseState) : ParseState :=
  mkParseState (pages st ++ [currentPage st]) false (mkPageSpec [])
    (currentFontSize st) (currentR st) (currentG st) (currentB st)
    (currentAlign st) (currentBottomAnchor st).

(** Start a new page if not already in one. *)
Definition open_page (st : ParseState) : ParseState :=
  if negb (inPage st)
  then mkParseState (pages st) true (mkPageSpec [])
         (currentFontSize st) (currentR st) (currentG st) (currentB st)
         (currentAlign st) (currentBottomAnchor st)
  else st.

(** Reset / update style from the parameters of a directive. *)
Definition update_style (st : ParseState) (params : string) : ParseState :=
  if negb (empty params) then
    let parts := SplitByComma params in
    let size1 :=
      if Nat.leb 1 (List.length parts) then
        let n := atoi (nth 0 parts "") in
        if (n <=? 0)%Z then 12%Z else n
      else currentFontSize st in
    let '(r1, g1, b1) :=
      if Nat.leb 2 (List.length parts) then ColorFromName (nth 1 parts "")
      else ColorFromName "black" in
    let align1 :=
      if Nat.leb 3 (List.length parts) then AlignFromName (nth 2 parts "")
      else ALIGN_LEFT in
    let bottom1 :=
      if Nat.leb 4 (List.length parts)
      then ToLower (Trim (nth 3 parts "")) =? "bottom"
      else false in
    mkParseState (pages st) (inPage st) (currentPage st)
      size1 r1 g1 b1 align1 bottom1
  else
    (* No params, default style *)
    let '(r1, g1, b1) := ColorFromName "black" in
    mkParseState (pages st) (inPage st) (currentPage st)
      12 r1 g1 b1 ALIGN_LEFT false.

(** The text of a line before its comment, and whether it has one. *)
Definition commentPos (raw : string) : option nat := find "//" raw.

Definition beforeComment (raw : string) : string :=
  match commentPos raw with
  | None => raw
  | Some p => String.substring 0 p raw
  end.

(** The [params] of a directive: what follows the closing bracket,
    trimmed. *)
Definition directive_params (line : string) (closePos : nat) : string :=
  if Nat.ltb (closePos + 1) (String.length line)
  then Trim (substr_from (closePos + 1) line)
  else "".

(** The body of the [while (std::getline(in, raw))] loop. *)
Definition parse_line (st : ParseState) (raw : string) : ParseState :=
  let line := Trim (beforeComment raw) in
  if empty line then
    (* handle blank lines for spacing *)
    let isPureComment :=
      (match commentPos raw with Some _ => true | None => false end)
      && empty (Trim (beforeComment raw)) in
    if inPage st && negb isPureComment
    then push_line st (snapshot "" st)
    else st
  else if Nat.ltb 0 (String.length line) && Ascii.eqb (char_at line 0) "["
  then
    if Nat.ltb 1 (String.length line) && Ascii.eqb (char_at line 1) "/"
    then (* Closing tag *)
      if inPage st then close_page st else st
    else (* Opening or style change *)
      match find "]" line with
      | None => st (* malformed, skip *)
      | Some closePos =>
          update_style (open_page st) (directive_params line closePos)
      end
  else (* Regular text line *)
    if inPage st then push_line st (snapshot line st) else st.

(** The line feed, [\n]. *)
Definition LF : ascii := ascii_of_nat 10.
Definition nl : string := String LF "".

(** The lines successive calls of [std::getline] deliver: [cur] is the line
    being read.  A call that meets the end of the file before any character
    fails and ends the loop. *)
Fixpoint getlines (s cur : string) : list string :=
  match s with
  | EmptyString => if empty cur then [] else [cur]
  | String c s' =>
      if Ascii.eqb c LF then cur :: getlines s' ""
      else getlines s' (cur ++ String c "")
  end.

(** What is left to do after the loop: an open page that has lines is
    kept. *)
Definition parse_end (st : ParseState) : list PageSpec :=
  if inPage st && negb (match lines (currentPage st) with [] => true | _ => false end)
  then pages st ++ [currentPage st]
  else pages st.

(** The loop and the end of [ParseLayoutFile], on the text of the file. *)
Definition parse_text (contents : string) (pages0 : list PageSpec)
  : list PageSpec :=
  parse_end (fold_left parse_line (getlines contents "") (initial_state pages0)).

(** [ParseLayoutFile]: [file] is what opening [filename] gave, [None] when
    the stream could not be opened.  The result is the returned flag, the
    pages and what went to [std::cerr]. *)
Definition ParseLayoutFile (file : option string) (filename : string)
  (pages0 : list PageSpec) : bool * list PageSpec * string :=
  match file with
  | None =>
      (false, pages0, "Failed to open layout file: " ++ filename ++ nl)
  | Some contents => (true, parse_text contents pages0, "")
  end.

(* ------------------------------------------------------------------ *)
(** ** Build PDF content stream for one page *)

Module PositionedLine.
Record t : Set := mk { ls : LineSpec; x : F32.f32; y : F32.f32 }.
End PositionedLine.

Definition pageWidth : F32.f32 := F32.whole 612.     (* 8.5 in at 72 dpi *)
Definition pageHeight : F32.f32 := F32.whole 792.    (* 11 in *)
Definition leftMargin : F32.f32 := F32.whole 72.
Definition rightMargin : F32.f32 := F32.whole 72.
Definition topMarginY : F32.f32 := F32.whole 750.    (* starting Y for top text *)
Definition bottomMarginY : F32.f32 := F32.whole 72.  (* base margin for footer *)

Definition computeX (ls : LineSpec) (textWidth : F32.f32) : F32.f32 :=
  match align ls with
  | ALIGN_CENTER =>
      let x := F32.div2 (F32.sub pageWidth textWidth) in
      if F32.ltb x leftMargin then leftMargin else x
  | ALIGN_RIGHT =>
      let x := F32.sub (F32.sub pageWidth rightMargin) textWidth in
      if F32.ltb x leftMargin then leftMargin else x
  | ALIGN_LEFT => leftMargin
  end.

(** Separate into top lines and bottom-anchored lines. *)
Fixpoint separate (ls : list LineSpec) (topLines bottomLines : list LineSpec)
  : list LineSpec * list LineSpec :=
  match ls with
  | [] => (topLines, bottomLines)
  | l :: rest =>
      if bottomAnchor l then separate rest topLines (bottomLines ++ [l])
      else separate rest (topLines ++ [l]) bottomLines
  end.

(** What both layout loops compute for a line [ls] met at height [y0]. *)
Definition position (ls : LineSpec) (y0 : F32.f32) : PositionedLine.t :=
  let approxCharWidth := F32.mul (F32.of_int (fontSize ls)) F32.one_half in
  let textWidth :=
    F32.mul approxCharWidth (F32.of_int (Z.of_nat (String.length (text ls)))) in
  PositionedLine.mk ls (computeX ls textWidth) y0.

(** [static_cast<float>(ls.fontSize + 4)], the sum being an [int]. *)
Definition advance (ls : LineSpec) : F32.f32 :=
  F32.of_int (Int32.add (fontSize ls) 4).

(** Layout top lines from topMargin down: the loop over [topLines], on
    [positioned] and [yTop]. *)
Fixpoint layout_top (topLines : list LineSpec)
  (positioned : list PositionedLine.t) (yTop : F32.f32)
  : list PositionedLine.t :=
  match topLines with
  | [] => positioned
  | ls :: rest =>
      (* Move down for next line (even if text is empty) *)
      layout_top rest (positioned ++ [position ls yTop])
        (F32.sub yTop (advance ls))
  end.

Definition dummy_line : LineSpec :=
  mkLineSpec "" 0 (F32.whole 0) (F32.whole 0) (F32.whole 0) ALIGN_LEFT false.

(** Layout bottom lines from bottomMargin up: the loop
    [for (i = size - 1; i >= 0; --i)]; [n] is [i + 1], so the loop starts
    with [n] the size of [bottomLines] and stops at 0. *)
Fixpoint layout_bottom (bottomLines : list LineSpec) (n : nat)
  (positioned : list PositionedLine.t) (yBottom : F32.f32)
  : list PositionedLine.t :=
  match n with
  | O => positioned
  | S i =>
      let ls := nth i bottomLines dummy_line in
      layout_bottom bottomLines i (positioned ++ [position ls yBottom])
        (F32.add yBottom (advance ls))
  end.

(** The vector [positioned] once both loops are done. *)
Definition layout (page : PageSpec) : list PositionedLine.t :=
  let '(topLines, bottomLines) := separate (lines page) [] [] in
  let positioned := layout_top topLines [] topMarginY in
  layout_bottom bottomLines (List.length bottomLines) positioned bottomMarginY.

(** Emit PDF text operators: the loop over [positioned], on [out]. *)
Fixpoint emit (positioned : list PositionedLine.t) (out : string) : string :=
  match positioned with
  | [] => out
  | pl :: rest =>
      let ls := PositionedLine.ls pl in
      let out1 := out ++ "/F1 " ++ show_int (fontSize ls) ++ " Tf" ++ nl in
      let out2 := out1 ++ F32.show (r ls) ++ " " ++ F32.show (g ls) ++ " "
                       ++ F32.show (b ls) ++ " rg" ++ nl in
      let out3 := out2 ++ "1 0 0 1 " ++ F32.show (PositionedLine.x pl) ++ " "
                       ++ F32.show (PositionedLine.y pl) ++ " Tm" ++ nl in
      let escaped := EscapePdfString (text ls) in
      emit rest (out3 ++ "(" ++ escaped ++ ") Tj" ++ nl)
  end.

Definition BuildPageContent (page : PageSpec) : string :=
  emit (layout page) ("BT" ++ nl) ++ "ET" ++ nl.

(* ------------------------------------------------------------------ *)
(** ** Main: assemble full PDF from pages *)

Definition firstPageObj : nat := 4.

(** Object 1: Catalog. *)
Definition catalog_object : string :=
  "1 0 obj" ++ nl ++ "<< /Type /Catalog /Pages 2 0 R >>" ++ nl
  ++ "endobj" ++ nl.

(** The loop that writes the [/Kids] of object 2: [n] iterations are left,
    [i] is the loop counter. *)
Fixpoint kids_loop (n i : nat) (obj : string) : string :=
  match n with
  | O => obj
  | S n' =>
      let pageObjNum := firstPageObj + i in
      kids_loop n' (S i) (obj ++ " " ++ show_nat pageObjNum ++ " 0 R")
  end.

(** Object 2: Pages. *)
Definition pages_object (numPages : nat) : string :=
  kids_loop numPages 0 ("2 0 obj" ++ nl ++ "<< /Type /Pages /Kids [")
  ++ " ] /Count " ++ show_nat numPages ++ " >>" ++ nl ++ "endobj" ++ nl.

(** Object 3: Font (Helvetica). *)
Definition font_object : string :=
  "3 0 obj" ++ nl
  ++ "<< /Type /Font /Subtype /Type1 /BaseFont /Helvetica >>" ++ nl
  ++ "endobj" ++ nl.

(** The body of the loop over the page objects. *)
Definition page_object (pageObjNum contentObjNum : nat) : string :=
  show_nat pageObjNum ++ " 0 obj" ++ nl
  ++ "<< /Type /Page" ++ nl
  ++ "   /Parent 2 0 R" ++ nl
  ++ "   /MediaBox [0 0 612 792]" ++ nl
  ++ "   /Resources << /Font << /F1 3 0 R >> >>" ++ nl
  ++ "   /Contents " ++ show_nat contentObjNum ++ " 0 R" ++ nl
  ++ ">>" ++ nl
  ++ "endobj" ++ nl.

(** Page objects (4 .. 3+numPages): [n] iterations are left. *)
Fixpoint page_objects_loop (n i firstContentObj : nat)
  (objects : list string) : list string :=
  match n with
  | O => objects
  | S n' =>
      let pageObjNum := firstPageObj + i in
      let contentObjNum := firstContentObj + i in
      page_objects_loop n' (S i) firstContentObj
        (objects ++ [page_object pageObjNum contentObjNum])
  end.

(** The body of the loop over the content streams. *)
Definition content_object (contentObjNum : nat) (content : string) : string :=
  let contentLength := Int32.wrap (Z.of_nat (String.length content)) in
  show_nat contentObjNum ++ " 0 obj" ++ nl
  ++ "<< /Length " ++ show_int contentLength ++ " >>" ++ nl
  ++ "stream" ++ nl
  ++ content
  ++ nl ++ "endstream" ++ nl
  ++ "endobj" ++ nl.

(** Content stream objects (one per page): [n] iterations are left. *)
Fixpoint content_objects_loop (pages : list PageSpec)
  (n i firstContentObj : nat) (objects : list string) : list string :=
  match n with
  | O => objects
  | S n' =>
      let content := BuildPageContent (nth i pages (mkPageSpec [])) in
      let contentObjNum := firstContentObj + i in
      content_objects_loop pages n' (S i) firstContentObj
        (objects ++ [content_object contentObjNum content])
  end.

(** Prepare PDF objects: the vector [objects], its dummy entry 0
    included. *)
Definition build_objects (pages : list PageSpec) : list string :=
  let objects := [""] in               (* dummy index 0 *)
  let numPages := List.length pages in
  let objects := (objects ++ [catalog_object])%list in
  let objects := (objects ++ [pages_object numPages])%list in
  let objects := (objects ++ [font_object])%list in
  let firstContentObj := firstPageObj + numPages in
  let objects := page_objects_loop numPages 0 firstContentObj objects in
  content_objects_loop pages numPages 0 firstContentObj objects.

(** The version header and the binary marker comment. *)
Definition pdf_header : string :=
  "%PDF-1.4" ++ nl
  ++ "%" ++ String (ascii_of_nat 226) (String (ascii_of_nat 227)
            (String (ascii_of_nat 207) (String (ascii_of_nat 211) "")))
  ++ nl.

(** [offsets[i] = v]. *)
Fixpoint set_nth {A : Type} (i : nat) (v : A) (l : list A) : list A :=
  match l, i with
  | [], _ => []
  | _ :: l', O => v :: l'
  | a :: l', S i' => a :: set_nth i' v l'
  end.

(** [pdf.tellp()]: the number of characters written so far. *)
Definition tellp (pdf : string) : Z := Z.of_nat (String.length pdf).

(** The loop that writes the objects and records where each starts, on
    [pdf] and [offsets]: [n] iterations are left. *)
Fixpoint write_objects_loop (objects : list string) (n i : nat)
  (pdf : string) (offsets : list Z) : string * list Z :=
  match n with
  | O => (pdf, offsets)
  | S n' =>
      let offsets1 := set_nth i (tellp pdf) offsets in
      write_objects_loop objects n' (S i) (pdf ++ nth i objects "") offsets1
  end.

(** [std::setw(w)] with [std::setfill('0')] before a text. *)
Fixpoint zeros (n : nat) : string :=
  match n with
  | O => ""
  | S n' => "0" ++ zeros n'
  end.

Definition setw_fill0 (w : nat) (s : string) : string :=
  zeros (w - String.length s) ++ s.

(** The loop that writes the in-use entries of the xref table. *)
Fixpoint xref_loop (offsets : list Z) (n i : nat) (pdf : string) : string :=
  match n with
  | O => pdf
  | S n' =>
      xref_loop offsets n' (S i)
        (pdf ++ setw_fill0 10 (show_int (nth i offsets 0%Z))
             ++ " 00000 n " ++ nl)
  end.

(** Build full PDF in memory: [pdfStr], from the pages. *)
Definition assemble (pages : list PageSpec) : string :=
  let objects := build_objects pages in
  let numObjects := List.length objects - 1 in
  let pdf := pdf_header in
  let offsets := repeat 0%Z (numObjects + 1) in
  let '(pdf, offsets) := write_objects_loop objects numObjects 1 pdf offsets in
  let xrefOffset := tellp pdf in
  (* Xref table *)
  let pdf := pdf ++ "xref" ++ nl in
  let pdf := pdf ++ "0 " ++ show_nat (numObjects + 1) ++ nl in
  let pdf := pdf ++ "0000000000 65535 f " ++ nl in
  let pdf := xref_loop offsets numObjects 1 pdf in
  (* Trailer *)
  let pdf := pdf ++ "trailer" ++ nl in
  let pdf := pdf ++ "<< /Size " ++ show_nat (numObjects + 1)
                 ++ " /Root 1 0 R >>" ++ nl in
  let pdf := pdf ++ "startxref" ++ nl in
  let pdf := pdf ++ show_int xrefOffset ++ nl in
  pdf ++ "%%EOF" ++ nl.

(** What a run of the program meets outside itself: its arguments
    ([argv], the program name first), the files it can open for reading
    with their contents, the paths it can open for writing, and what a
    file opened for writing holds after [out.write] of some bytes and
    [out.close()]: [write_out path data] is [data] when the write
    succeeds, and less (a part of it, or nothing) when it fails, as on a
    full device. *)
Record World : Type := mkWorld {
  argv : list string;
  open_in : string -> option string;
  open_out : string -> bool;
  write_out : string -> string -> string
}.

(** What a run leaves behind: the exit code, the texts sent to [std::cerr]
    and [std::cout], and the file written, with the bytes it holds in the
    end. *)
Record Outcome : Set := mkOutcome {
  exit_code : Z;
  cerr : string;
  cout : string;
  written : option (string * string)
}.

Definition main (w : World) : Outcome :=
  let argc := List.length (argv w) in
  if Nat.ltb argc 2 then
    mkOutcome 1 ("Usage: layout2pdf <filename>" ++ nl) "" None
  else
    let layoutFile := nth 1 (argv w) "" in
    let outputFile := layoutFile ++ ".pdf" in
    let layoutFile := layoutFile ++ ".txt" in
    let '(ok, pages, err) :=
      ParseLayoutFile (open_in w layoutFile) layoutFile [] in
    if negb ok then mkOutcome 1 err "" None
    else
      match pages with
      | [] => mkOutcome 1 ("No pages parsed from layout file." ++ nl) "" None
      | _ :: _ =>
          let pdfStr := assemble pages in
          (* Write to file *)
          if negb (open_out w outputFile) then
            mkOutcome 1 ("Failed to open output PDF: " ++ outputFile ++ nl)
              "" None
          else
            (* [out.write], [out.close()]: the stream is not tested again *)
            let stored := write_out w outputFile pdfStr in
            mkOutcome 0 "" ("Saved to '" ++ outputFile ++ "'" ++ nl)
              (Some (outputFile, stored))
      end.

(* ------------------------------------------------------------------ *)
(** ** Notions the statements below are phrased with *)

(** The segments of [s] between its commas: one more than there are commas,
    none of them trimmed. *)
Fixpoint segments (s : string) : list string :=
  match s with
  | EmptyString => [""]
  | String c s' =>
      if Ascii.eqb c "," then "" :: segments s'
      else match segments s' with
           | [] => [String c ""]
           | seg :: rest => String c seg :: rest
           end
  end.

(** The segments that become parts: all of them, but for a last one that
    is empty before trimming. *)
Definition kept_segments (s : string) : list string :=
  let segs := segments s in
  if empty (last segs "") then removelast segs else segs.

(** Every character of [s] is white space. *)
Fixpoint all_space (s : string) : bool :=
  match s with
  | EmptyString => true
  | String c s' => isspace c && all_space s'
  end.

(** [s] does not end with a comma. *)
Fixpoint no_final_comma (s : string) : bool :=
  match s with
  | EmptyString => true
  | String c EmptyString => negb (Ascii.eqb c ",")
  | String _ s' => no_final_comma s'
  end.

(** [cur] put in front of the first segment. *)
Definition onto_head (cur : string) (segs : list string) : list string :=
  match segs with
  | [] => [cur]
  | seg :: rest => (cur ++ seg) :: rest
  end.

(** The character [c] occurs in [s]. *)
Fixpoint contains (c : ascii) (s : string) : bool :=
  match s with
  | EmptyString => false
  | String a s' => Ascii.eqb a c || contains c s'
  end.

(** The line as the parser looks at it: the comment stripped, then
    trimmed. *)
Definition stripped (raw : string) : string := Trim (beforeComment raw).

(** The style a state holds. *)
Record Style : Set := mkStyle {
  style_size : Z;
  style_color : F32.f32 * F32.f32 * F32.f32;
  style_align : TextAlign;
  style_bottom : bool
}.

Definition style_of (st : ParseState) : Style :=
  mkStyle (currentFontSize st) (currentR st, currentG st, currentB st)
    (currentAlign st) (currentBottomAnchor st).

Definition black : F32.f32 * F32.f32 * F32.f32 :=
  (F32.whole 0, F32.whole 0, F32.whole 0).

(** The first, the second character of [s] is [c]. *)
Definition starts_with (c : ascii) (s : string) : bool :=
  match s with
  | String a _ => Ascii.eqb a c
  | EmptyString => false
  end.

Definition second_is (c : ascii) (s : string) : bool :=
  match s with
  | String _ (String a _) => Ascii.eqb a c
  | _ => false
  end.

(** The state after a spacer or a text line [txt]: one more line on the
    current page, made of [txt] and of the style as it stands; nothing else
    moves. *)
Definition with_line (st : ParseState) (txt : string) : ParseState :=
  mkParseState (pages st) (inPage st)
    (mkPageSpec
       (lines (currentPage st)
        ++ [mkLineSpec txt (currentFontSize st)
              (currentR st) (currentG st) (currentB st)
              (currentAlign st) (currentBottomAnchor st)]))
    (currentFontSize st) (currentR st) (currentG st) (currentB st)
    (currentAlign st) (currentBottomAnchor st).

(** The state the loop of [ParseLayoutFile] ends in. *)
Definition final_state (contents : string) (pages0 : list PageSpec)
  : ParseState :=
  fold_left parse_line (getlines contents "") (initial_state pages0).

(** The lines of a page that are anchored at the top, at the bottom, in
    the order of their declaration. *)
Definition top_lines (page : PageSpec) : list LineSpec :=
  filter (fun l => negb (bottomAnchor l)) (lines page).

Definition bottom_lines (page : PageSpec) : list LineSpec :=
  filter bottomAnchor (lines page).

(** The lines [l] placed one after the other from [y0] on, [step] giving
    the next height from the current one and the advance of the line. *)
Fixpoint place (step : F32.f32 -> F32.f32 -> F32.f32) (l : list LineSpec)
  (y0 : F32.f32) : list PositionedLine.t :=
  match l with
  | [] => []
  | ls :: rest => position ls y0 :: place step rest (step y0 (advance ls))
  end.

Definition dummy_entry : PositionedLine.t :=
  PositionedLine.mk dummy_line (F32.whole 0) (F32.whole 0).


(** The height a stack of lines takes: [fontSize + 4] for each. *)
Fixpoint stack_height (l : list LineSpec) : Z :=
  match l with
  | [] => 0%Z
  | ls :: rest => (fontSize ls + 4 + stack_height rest)%Z
  end.

(** The strings of a list, one after the other. *)
Fixpoint concat_all (l : list string) : string :=
  match l with
  | [] => ""
  | s :: rest => s ++ concat_all rest
  end.

(** The number a run of decimal digits denotes, zeros in front allowed. *)
Definition decimal_value (s : string) : Z := read_digits s 0.

(** The place in the output where the text of object [i] starts: behind
    the header and the objects before it. *)
Definition object_offset (pages : list PageSpec) (i : nat) : nat :=
  String.length
    (pdf_header ++ concat_all (firstn (i - 1) (skipn 1 (build_objects pages)))).

(** The reference to object [k] in the [/Kids] array. *)
Definition kid (k : nat) : string := " " ++ show_nat k ++ " 0 R".

(** The line of the xref table for an object that starts at [offset]. *)
Definition xref_entry (offset : Z) : string :=
  setw_fill0 10 (show_int offset) ++ " 00000 n " ++ nl.

(** The header and all the objects, in the order of their numbers. *)
Definition pdf_body (pages : list PageSpec) : string :=
  pdf_header ++ concat_all (skipn 1 (build_objects pages)).

(** [s] without the white space at its end. *)
Fixpoint rtrim (s : string) : string :=
  match s with
  | EmptyString => EmptyString
  | String c s' =>
      let rest := rtrim s' in
      if empty rest && isspace c then EmptyString else String c rest
  end.

(** The channel of a colour is 0, 1/2 or 1. *)
Definition channel_ok (c : F32.f32) : Prop :=
  c = F32.whole 0 \/ c = F32.one_half \/ c = F32.whole 1.

(** How often the character [c] occurs in [s]. *)
Fixpoint count_char (c : ascii) (s : string) : nat :=
  match s with
  | EmptyString => 0
  | String a s' => (if Ascii.eqb a c then 1 else 0) + count_char c s'
  end.

(** A line as the parser may make it: a font size that is a positive
    [int], and a colour of the table. *)
Definition line_ok (l : LineSpec) : Prop :=
  (1 <= fontSize l <= Int32.max_int)%Z /\
  channel_ok (r l) /\ channel_ok (g l) /\ channel_ok (b l).

(** A parser state that holds such lines only, and such a style. *)
Definition state_ok (st : ParseState) : Prop :=
  Forall (fun page => Forall line_ok (lines page)) (pages st) /\
  Forall line_ok (lines (currentPage st)) /\
  (1 <= currentFontSize st <= Int32.max_int)%Z /\
  channel_ok (currentR st) /\ channel_ok (currentG st) /\
  channel_ok (currentB st).

(** All the lines a state holds, in the order they were made: those of the
    finished pages, then those of the page being accumulated. *)
Definition all_lines (st : ParseState) : list LineSpec :=
  (flat_map lines (pages st) ++ lines (currentPage st))%list.

(** Outside a page nothing is accumulated. *)
Definition idle_empty (st : ParseState) : Prop :=
  inPage st = false -> lines (currentPage st) = [].

(** [l1] is [l2] with some elements left out, the order kept. *)
Fixpoint subseq {A : Type} (l1 l2 : list A) : Prop :=
  match l2 with
  | [] => l1 = []
  | y :: rest2 =>
      subseq l1 rest2 \/
      match l1 with
      | [] => False
      | x :: rest1 => x = y /\ subseq rest1 rest2
      end
  end.

(** The lines put together again, each one ended by a line feed. *)
Definition unlines (ls : list string) : string :=
  concat_all (map (fun l => l ++ nl) ls).

(** The text ends inside a line: [pending] tells whether a line is being
    read when the text starts. *)
Fixpoint open_line (s : string) (pending : bool) : bool :=
  match s with
  | EmptyString => pending
  | String c s' => open_line s' (negb (Ascii.eqb c LF))
  end.

(** What a reader of PDF gets from a literal string whose opening
    parenthesis it has just passed: the text up to the first closing
    parenthesis that is not escaped, a backslash giving the character
    behind it, and what follows the literal.  [None] when the literal does
    not end. *)
Fixpoint read_literal (s : string) : option (string * string) :=
  match s with
  | EmptyString => None
  | String c s' =>
      if Ascii.eqb c ")" then Some ("", s')
      else if Ascii.eqb c "\"
      then match s' with
           | EmptyString => None
           | String e s'' =>
               match read_literal s'' with
               | Some (txt, rest) => Some (String e txt, rest)
               | None => None
               end
           end
      else match read_literal s' with
           | Some (txt, rest) => Some (String c txt, rest)
           | None => None
           end
  end.

(** The four operators the content stream holds for a positioned line:
    font and size, colour, place, text. *)
Definition line_operators (pl : PositionedLine.t) : string :=
  let ls := PositionedLine.ls pl in
  "/F1 " ++ show_int (fontSize ls) ++ " Tf" ++ nl
  ++ F32.show (r ls) ++ " " ++ F32.show (g ls) ++ " " ++ F32.show (b ls)
  ++ " rg" ++ nl
  ++ "1 0 0 1 " ++ F32.show (PositionedLine.x pl) ++ " "
  ++ F32.show (PositionedLine.y pl) ++ " Tm" ++ nl
  ++ "(" ++ EscapePdfString (text ls) ++ ") Tj" ++ nl.

(** Where the xref section starts in the output, and where its table of
    entries of 20 bytes starts, behind the keyword and the subsection
    line. *)
Definition xref_start (pages : list PageSpec) : nat :=
  String.length (pdf_body pages).

Definition xref_table (pages : list PageSpec) : nat :=
  xref_start pages
  + String.length ("xref" ++ nl ++ "0 "
                   ++ show_nat (3 + 2 * List.length pages + 1) ++ nl).

(** A character that is neither white space nor a comma, and a string of
    such characters. *)
Definition plain_char (c : ascii) : bool :=
  negb (isspace c) && negb (Ascii.eqb c ",").

Fixpoint plain (s : string) : bool :=
  match s with
  | EmptyString => true
  | String c s' => plain_char c && plain s'
  end.

(* ------------------------------------------------------------------ *)
(** ** Strings: basic facts *)

Lemma append_nil_r (s : string) : s ++ "" = s.
Proof. induction s as [|c s IH]; simpl; [reflexivity | now rewrite IH]. Qed.

Lemma append_assoc (s1 s2 s3 : string) : (s1 ++ s2) ++ s3 = s1 ++ (s2 ++ s3).
Proof. induction s1 as [|c s1 IH]; simpl; [reflexivity | now rewrite IH]. Qed.

Lemma length_append (s1 s2 : string) :
  String.length (s1 ++ s2) = String.length s1 + String.length s2.
Proof. induction s1 as [|c s1 IH]; simpl; [reflexivity | now rewrite IH]. Qed.

Lemma empty_true (s : string) : empty s = true -> s = "".
Proof. destruct s; [reflexivity | discriminate]. Qed.

(* ------------------------------------------------------------------ *)
(** ** SplitByComma *)

Lemma segments_not_nil (s : string) : segments s <> [].
Proof.
  induction s as [|c s IH]; simpl; [discriminate|].
  destruct (Ascii.eqb c ","); [discriminate|].
  destruct (segments s); discriminate.
Qed.

(** The segments of a string are never none: [segments s] is taken apart
    into its first segment and the rest. *)
Ltac segments_cons s seg rest :=
  let Hne := fresh "Hne" in
  pose proof (segments_not_nil s) as Hne;
  destruct (segments s) as [|seg rest]; [contradiction|].

Lemma SplitByComma_loop_segments (s : string) :
  forall parts cur,
    SplitByComma_loop s parts cur =
    ((parts ++ map Trim (removelast (onto_head cur (segments s))))%list,
     last (onto_head cur (segments s)) "").
Proof.
  induction s as [|c s IH]; intros parts cur; simpl.
  - now rewrite append_nil_r, app_nil_r.
  - destruct (Ascii.eqb c ",") eqn:Hc.
    + rewrite IH. cbn [onto_head]. rewrite append_nil_r.
      segments_cons s seg rest.
      cbn [onto_head append removelast last map].
      now rewrite <- app_assoc.
    + rewrite IH.
      segments_cons s seg rest.
      cbn [onto_head]. rewrite append_assoc. reflexivity.
Qed.

Lemma SplitByComma_kept (s : string) :
  SplitByComma s = map Trim (kept_segments s).
Proof.
  unfold SplitByComma, kept_segments.
  rewrite SplitByComma_loop_segments.
  pose proof (segments_not_nil s) as Hne.
  assert (Hh : onto_head "" (segments s) = segments s)
    by (destruct (segments s); [contradiction | reflexivity]).
  rewrite Hh. cbn [app].
  destruct (empty (last (segments s) "")) eqn:He; cbn [negb].
  - reflexivity.
  - rewrite (app_removelast_last "" Hne) at 3.
    now rewrite map_app.
Qed.

Lemma segments_append_comma (s : string) :
  segments (s ++ ",") = (segments s ++ [""])%list.
Proof.
  induction s as [|c s IH]; simpl; [reflexivity|].
  destruct (Ascii.eqb c ","); rewrite IH; [reflexivity|].
  pose proof (segments_not_nil s) as Hne.
  destruct (segments s); [contradiction | reflexivity].
Qed.

Lemma last_segment_empty (s : string) :
  empty (last (segments s) "") = true ->
  s = "" \/ no_final_comma s = false.
Proof.
  induction s as [|c s IH]; [now left|].
  intros He. right. cbn [segments] in He.
  pose proof (segments_not_nil s) as Hne.
  destruct (segments s) as [|seg rest] eqn:Hs; [contradiction|].
  assert (Hstep : empty (last (seg :: rest) "") = true ->
                  no_final_comma (String c s) = false).
  { intros He'. destruct (IH He') as [-> | Hn].
    - simpl in Hs. injection Hs as <- <-.
      destruct (Ascii.eqb c ",") eqn:Hc; simpl; rewrite Hc;
        [reflexivity | discriminate He].
    - destruct s; [discriminate | exact Hn]. }
  destruct (Ascii.eqb c ","); [exact (Hstep He)|].
  destruct rest as [|seg' rest']; [discriminate He | exact (Hstep He)].
Qed.

(** A comma after a string that does not end with one adds no part. *)
Lemma SplitByComma_final_comma (s : string) :
  s <> "" -> no_final_comma s = true ->
  SplitByComma (s ++ ",") = SplitByComma s.
Proof.
  intros Hne Hnc. rewrite !SplitByComma_kept. f_equal.
  unfold kept_segments. rewrite segments_append_comma.
  rewrite last_last, removelast_last. cbn [empty].
  destruct (empty (last (segments s) "")) eqn:He; [|reflexivity].
  destruct (last_segment_empty s He) as [-> | Hn]; [contradiction|congruence].
Qed.

Lemma substring_zero_length (s : string) (n : nat) : String.substring n 0 s = "".
Proof.
  revert n. induction s as [|c s IH]; intros [|n]; simpl; auto.
Qed.

Lemma trim_start_all_space (s : string) :
  all_space s = true -> trim_start s = String.length s.
Proof.
  induction s as [|c s IH]; simpl; [reflexivity|].
  destruct (isspace c); [|discriminate].
  intros H. now rewrite (IH H).
Qed.

Lemma trim_end_at_start (s : string) (n : nat) : trim_end s n n = n.
Proof.
  destruct n as [|n]; [reflexivity|].
  cbn [trim_end]. now rewrite Nat.ltb_irrefl.
Qed.

Lemma Trim_all_space (s : string) : all_space s = true -> Trim s = "".
Proof.
  intros H. unfold Trim. rewrite (trim_start_all_space s H), trim_end_at_start.
  rewrite Nat.sub_diag. apply substring_zero_length.
Qed.

Lemma segments_append (s t : string) :
  segments (s ++ String "," t) = (segments s ++ segments t)%list.
Proof.
  induction s as [|c s IH]; [reflexivity|].
  cbn [append segments]. rewrite IH.
  destruct (Ascii.eqb c ","); [reflexivity|].
  pose proof (segments_not_nil s) as Hne.
  destruct (segments s); [contradiction | reflexivity].
Qed.

Lemma segments_all_space (s : string) : all_space s = true -> segments s = [s].
Proof.
  induction s as [|c s IH]; [reflexivity|].
  cbn [all_space segments]. intros H.
  apply andb_true_iff in H as [Hc Hs].
  destruct (Ascii.eqb c ",") eqn:E.
  - apply Ascii.eqb_eq in E. subst c. discriminate Hc.
  - now rewrite (IH Hs).
Qed.

(** White space after the last comma is a part of its own, an empty one. *)
Lemma SplitByComma_final_space (s ws : string) :
  ws <> "" -> all_space ws = true ->
  SplitByComma (s ++ "," ++ ws) = (SplitByComma (s ++ ",") ++ [""])%list.
Proof.
  intros Hne Hws. rewrite !SplitByComma_kept. unfold kept_segments.
  change ("," ++ ws) with (String "," ws).
  rewrite segments_append, segments_append_comma, (segments_all_space ws Hws).
  rewrite !last_last, !removelast_last. cbn [empty].
  destruct ws as [|c ws']; [contradiction|]. cbn [empty].
  rewrite map_app. cbn [map].
  now rewrite (Trim_all_space _ Hws).
Qed.

Lemma kept_segments_not_nil (s : string) : s <> "" -> kept_segments s <> [].
Proof.
  destruct s as [|c s]; [contradiction|]. intros _.
  unfold kept_segments. cbn [segments].
  segments_cons s seg rest.
  destruct (Ascii.eqb c ",").
  - change (last ("" :: seg :: rest) "") with (last (seg :: rest) "").
    destruct (empty (last (seg :: rest) "")); discriminate.
  - destruct rest as [|seg' rest']; [discriminate|].
    change (last (String c seg :: seg' :: rest') "")
      with (last (seg' :: rest') "").
    destruct (empty (last (seg' :: rest') "")); discriminate.
Qed.

Lemma SplitByComma_not_nil (s : string) : s <> "" -> SplitByComma s <> [].
Proof.
  intros H. rewrite SplitByComma_kept.
  pose proof (kept_segments_not_nil s H) as Hk.
  destruct (kept_segments s); [contradiction | discriminate].
Qed.

(** C10. [SplitByComma] keeps an empty segment between two commas (its
    parts are the trimmed segments) and drops a last segment that is empty
    before trimming: a comma at the very end of the parameters adds no
    part, so [[p] 14, red,] is read as [[p] 14, red] (left aligned, not
    bottom anchored), while white space after the last comma is a part of
    its own, an empty one. *)
Theorem SplitByComma_trailing_segment :
  (forall s, SplitByComma s = map Trim (kept_segments s)) /\
  (forall s, s <> "" -> no_final_comma s = true ->
     SplitByComma (s ++ ",") = SplitByComma s) /\
  (forall st,
     parse_line st "[p] 14, red," = parse_line st "[p] 14, red" /\
     style_of (parse_line st "[p] 14, red,")
     = mkStyle 14 (F32.whole 1, F32.whole 0, F32.whole 0) ALIGN_LEFT false) /\
  (forall s ws, ws <> "" -> all_space ws = true ->
     SplitByComma (s ++ "," ++ ws) = (SplitByComma (s ++ ",") ++ [""])%list) /\
  SplitByComma "14, red, " = ["14"; "red"; ""] /\
  SplitByComma "14,, center" = ["14"; ""; "center"] /\
  (forall st, style_of (update_style st "14,, center")
              = mkStyle 14 black ALIGN_CENTER false).
Proof.
  split; [exact SplitByComma_kept|].
  split; [exact SplitByComma_final_comma|].
  split; [intros st; split; reflexivity|].
  split; [exact SplitByComma_final_space|].
  repeat split.
Qed.

Lemma SplitByComma_trailing_segment_witness :
  SplitByComma ("14, red" ++ ",") = SplitByComma "14, red" /\
  SplitByComma ("14, red" ++ "," ++ " ")
  = (SplitByComma ("14, red" ++ ",") ++ [""])%list.
Proof.
  destruct SplitByComma_trailing_segment as (_ & Hcomma & _ & Hspace & _).
  split.
  - apply Hcomma; [discriminate | reflexivity].
  - apply Hspace; [discriminate | reflexivity].
Defined.

(* ------------------------------------------------------------------ *)
(** ** The parser, line by line *)

Lemma find_char_absent (c : ascii) (s : string) :
  contains c s = false -> find (String c "") s = None.
Proof.
  unfold find. induction s as [|a s IH]; [reflexivity|].
  cbn [contains]. intros H. apply orb_false_iff in H as [Hac Hs].
  cbn [String.index].
  assert (Hp : String.prefix (String c "") (String a s) = false).
  { destruct (String.prefix (String c "") (String a s)) eqn:E; [|reflexivity].
    apply String.prefix_correct in E. cbn in E.
    rewrite substring_zero_length in E. injection E as E.
    subst a. now rewrite Ascii.eqb_refl in Hac. }
  rewrite Hp, (IH Hs). reflexivity.
Qed.

Lemma substring_past_end (s : string) :
  forall n m, String.length s <= n -> String.substring n m s = "".
Proof.
  induction s as [|c s IH]; intros [|n] m H; simpl in *;
    try reflexivity; try lia.
  - destruct m; reflexivity.
  - apply IH. lia.
Qed.

(** The parameters of a directive are the trimmed text after the bracket,
    also when nothing follows it. *)
Lemma directive_params_trim (line : string) (closePos : nat) :
  directive_params line closePos = Trim (substr_from (closePos + 1) line).
Proof.
  unfold directive_params.
  destruct (Nat.ltb (closePos + 1) (String.length line)) eqn:E; [reflexivity|].
  apply Nat.ltb_ge in E. unfold substr_from.
  now rewrite substring_past_end.
Qed.

(** The cases of the loop body, by the shape of the stripped line. *)
Lemma parse_line_cases (st : ParseState) (raw : string) :
  parse_line st raw =
  let line := stripped raw in
  if empty line then
    match commentPos raw with
    | Some _ => st
    | None => if inPage st then with_line st "" else st
    end
  else if starts_with "[" line then
    if second_is "/" line then (if inPage st then close_page st else st)
    else match find "]" line with
         | None => st
         | Some closePos =>
             update_style (open_page st)
               (Trim (substr_from (closePos + 1) line))
         end
  else if inPage st then with_line st line else st.
Proof.
  unfold parse_line, stripped. cbv zeta.
  destruct (Trim (beforeComment raw)) as [|c rest] eqn:Hline.
  - cbn [empty]. destruct (commentPos raw); cbn [andb negb].
    + now rewrite andb_false_r.
    + now rewrite andb_true_r.
  - cbn [empty starts_with String.length Nat.ltb Nat.leb andb].
    change (char_at (String c rest) 0) with c.
    destruct (Ascii.eqb c "["); [|reflexivity].
    destruct rest as [|c2 rest2].
    + cbn [second_is String.length Nat.ltb Nat.leb andb].
      destruct (find "]" (String c "")); [|reflexivity].
      now rewrite directive_params_trim.
    + cbn [second_is String.length Nat.ltb Nat.leb andb].
      change (char_at (String c (String c2 rest2)) 1) with c2.
      destruct (Ascii.eqb c2 "/"); [reflexivity|].
      destruct (find "]" (String c (String c2 rest2))); [|reflexivity].
      now rewrite directive_params_trim.
Qed.

(** C5. A line that, stripped of its comment and trimmed, starts with
    an opening bracket not followed by a slash and holds no closing bracket
    leaves the whole parser state as it is: no page is entered, the style
    stays, no line and no page is added; the loop goes on with the next
    line as if the line were not there. *)
Theorem malformed_directive_skipped (st : ParseState) (raw : string) :
  starts_with "[" (stripped raw) = true ->
  second_is "/" (stripped raw) = false ->
  contains "]" (stripped raw) = false ->
  parse_line st raw = st /\
  (forall before after st0,
     fold_left parse_line (before ++ raw :: after)%list st0
     = fold_left parse_line (before ++ after)%list st0).
Proof.
  intros Hopen Hslash Hclose.
  assert (Hskip : forall s, parse_line s raw = s).
  { intros s. rewrite parse_line_cases. cbv zeta.
    rewrite Hopen, Hslash, (find_char_absent _ _ Hclose).
    destruct (stripped raw); [discriminate Hopen | reflexivity]. }
  split; [apply Hskip|].
  intros before after st0.
  rewrite !fold_left_app. cbn [fold_left]. now rewrite Hskip.
Qed.

Lemma malformed_directive_skipped_witness :
  parse_line (initial_state []) "[badpage" = initial_state [].
Proof.
  apply (malformed_directive_skipped (initial_state []) "[badpage");
    reflexivity.
Defined.

Lemma trim_start_le (s : string) : trim_start s <= String.length s.
Proof.
  induction s as [|c s IH]; cbn; [lia|]. destruct (isspace c); lia.
Qed.

Lemma trim_start_not_space (s : string) :
  trim_start s < String.length s ->
  isspace (char_at s (trim_start s)) = false.
Proof.
  induction s as [|c s IH]; cbn [trim_start String.length]; [lia|].
  destruct (isspace c) eqn:Hc; intros H.
  - change (char_at (String c s) (S (trim_start s)))
      with (char_at s (trim_start s)).
    apply IH. lia.
  - exact Hc.
Qed.

Lemma trim_start_full (s : string) :
  trim_start s = String.length s -> all_space s = true.
Proof.
  induction s as [|c s IH]; cbn [trim_start String.length all_space];
    [reflexivity|].
  destruct (isspace c); [|discriminate].
  intros H. cbn [andb]. apply IH. lia.
Qed.

Lemma trim_end_above (s : string) (start : nat) :
  isspace (char_at s start) = false ->
  forall end_, start < end_ -> start < trim_end s start end_.
Proof.
  intros Hstart. induction end_ as [|e IH]; intros H; [lia|].
  cbn [trim_end].
  destruct (Nat.ltb start (S e) && isspace (char_at s e)) eqn:Hcond; [|lia].
  apply andb_true_iff in Hcond as [_ Hsp].
  apply IH. destruct (Nat.eq_dec e start) as [-> | Hne]; [congruence | lia].
Qed.

Lemma substring_not_empty (s : string) :
  forall n m, n < String.length s -> String.substring n (S m) s <> "".
Proof.
  induction s as [|c s IH]; intros [|n] m H; cbn in *; try lia.
  - discriminate.
  - apply IH. lia.
Qed.

(** What [Trim] leaves nothing of is white space only. *)
Lemma Trim_empty_all_space (s : string) : Trim s = "" -> all_space s = true.
Proof.
  unfold Trim. intros H.
  pose proof (trim_start_le s) as Hle.
  destruct (Nat.eq_dec (trim_start s) (String.length s)) as [Heq | Hne];
    [now apply trim_start_full|].
  exfalso.
  pose proof (trim_end_above s (trim_start s)
                (trim_start_not_space s ltac:(lia))
                (String.length s) ltac:(lia)) as Hend.
  revert H.
  replace (trim_end s (trim_start s) (String.length s) - trim_start s)
    with (S (trim_end s (trim_start s) (String.length s) - trim_start s - 1))
    by lia.
  apply substring_not_empty. lia.
Qed.

(** C7. A line that is empty once its comment is stripped and the rest
    trimmed has only white space before the comment, if any; with a comment
    marker on it nothing is emitted; without one, inside a page, a spacer
    with empty text and the current font size, colour, alignment and anchor
    is appended to the current page; outside a page the line is ignored. *)
Theorem blank_line_spacer (st : ParseState) (raw : string) :
  stripped raw = "" ->
  all_space (beforeComment raw) = true /\
  (commentPos raw <> None -> parse_line st raw = st) /\
  (commentPos raw = None -> inPage st = true ->
   parse_line st raw =
   mkParseState (pages st) true
     (mkPageSpec
        (lines (currentPage st)
         ++ [mkLineSpec "" (currentFontSize st)
               (currentR st) (currentG st) (currentB st)
               (currentAlign st) (currentBottomAnchor st)]))
     (currentFontSize st) (currentR st) (currentG st) (currentB st)
     (currentAlign st) (currentBottomAnchor st)) /\
  (commentPos raw = None -> inPage st = false -> parse_line st raw = st).
Proof.
  intros Hblank.
  split; [apply Trim_empty_all_space; exact Hblank|].
  rewrite parse_line_cases. cbv zeta. rewrite Hblank.
  cbn [empty]. repeat split.
  - intros Hc. destruct (commentPos raw); [reflexivity | contradiction].
  - intros -> Hin. rewrite Hin. unfold with_line. now rewrite Hin.
  - intros -> Hin. now rewrite Hin.
Qed.

Lemma blank_line_spacer_witness :
  parse_line (parse_line (initial_state []) "[p] 14, red") "   "
  = mkParseState [] true
      (mkPageSpec
         [mkLineSpec "" 14 (F32.whole 1) (F32.whole 0) (F32.whole 0)
            ALIGN_LEFT false])
      14 (F32.whole 1) (F32.whole 0) (F32.whole 0) ALIGN_LEFT false
  /\ parse_line (parse_line (initial_state []) "[p] 14, red") "  // note"
     = parse_line (initial_state []) "[p] 14, red".
Proof.
  split.
  - destruct (blank_line_spacer
                (parse_line (initial_state []) "[p] 14, red") "   " eq_refl)
      as (_ & _ & Hspacer & _).
    apply Hspacer; reflexivity.
  - destruct (blank_line_spacer
                (parse_line (initial_state []) "[p] 14, red") "  // note"
                eq_refl) as (_ & Hcomment & _).
    apply Hcomment. discriminate.
Defined.

(** C6. At the end of the input, inside a page, the page being
    accumulated is appended to the pages exactly when it has a line: an
    open page with lines is kept, an open page without lines is dropped. *)
Theorem unterminated_page (contents : string) (pages0 : list PageSpec) :
  inPage (final_state contents pages0) = true ->
  (lines (currentPage (final_state contents pages0)) <> [] ->
   parse_text contents pages0
   = (pages (final_state contents pages0)
      ++ [currentPage (final_state contents pages0)])%list) /\
  (lines (currentPage (final_state contents pages0)) = [] ->
   parse_text contents pages0 = pages (final_state contents pages0)).
Proof.
  intros Hin. unfold parse_text, parse_end.
  fold (final_state contents pages0). rewrite Hin. cbn [andb].
  destruct (lines (currentPage (final_state contents pages0))) eqn:E.
  - split; [intros H; now contradiction H | reflexivity].
  - split; [reflexivity | discriminate].
Qed.

Lemma unterminated_page_witness :
  List.length (parse_text ("[p]" ++ nl ++ "text") []) = 1 /\
  parse_text ("[p]" ++ nl) [] = [].
Proof.
  split.
  - destruct (unterminated_page ("[p]" ++ nl ++ "text") [] eq_refl) as [H _].
    rewrite H; [reflexivity | discriminate].
  - destruct (unterminated_page ("[p]" ++ nl) [] eq_refl) as [_ H].
    rewrite H; reflexivity.
Defined.

Lemma style_of_open_page (st : ParseState) (params : string) :
  style_of (update_style (open_page st) params)
  = style_of (update_style st params).
Proof.
  unfold open_page. destruct (inPage st); cbn [negb]; [reflexivity|].
  unfold update_style. destruct (negb (empty params)).
  - cbv zeta. cbn [currentFontSize].
    destruct (if Nat.leb 2 _ then _ else _) as [[r1 g1] b1]. reflexivity.
  - reflexivity.
Qed.

(** The style a directive with parameters sets, part by part. *)
Lemma update_style_parts (st : ParseState) (params : string) :
  params <> "" ->
  style_of (update_style st params)
  = let parts := SplitByComma params in
    mkStyle
      (match nth_error parts 0 with
       | Some part0 => if (atoi part0 <=? 0)%Z then 12%Z else atoi part0
       | None => currentFontSize st
       end)
      (match nth_error parts 1 with
       | Some part1 => ColorFromName part1
       | None => black
       end)
      (match nth_error parts 2 with
       | Some part2 => AlignFromName part2
       | None => ALIGN_LEFT
       end)
      (match nth_error parts 3 with
       | Some part3 => ToLower (Trim part3) =? "bottom"
       | None => false
       end).
Proof.
  intros Hne. unfold update_style.
  destruct params as [|c ps]; [contradiction|].
  cbn [empty negb]. cbv zeta.
  generalize (SplitByComma (String c ps)) as parts. intros parts.
  destruct parts as [|p0 [|p1 [|p2 [|p3 rest]]]];
    cbn [List.length Nat.leb nth nth_error];
    try (destruct (ColorFromName p1) as [[r1 g1] b1]);
    reflexivity.
Qed.

(** C4. A page-opening or style directive with parameters (the trimmed
    text after the bracket is not empty) overwrites the whole style from
    the parts the parameters split into: the font size is the integer read
    from part 0, 12 when that is not positive; the colour is that of part 1,
    black without it; the alignment is that of part 2, left without it; the
    line is bottom anchored exactly when part 3 is there and is "bottom" in
    any case of letters.  Without parameters the style is reset to 12,
    black, left, top anchored. *)
Theorem directive_style (st : ParseState) (raw : string) (closePos : nat) :
  starts_with "[" (stripped raw) = true ->
  second_is "/" (stripped raw) = false ->
  find "]" (stripped raw) = Some closePos ->
  let params := Trim (substr_from (closePos + 1) (stripped raw)) in
  let parts := SplitByComma params in
  let style := style_of (parse_line st raw) in
  (params <> "" ->
   (exists part0,
      nth_error parts 0 = Some part0 /\
      style_size style = if (atoi part0 <=? 0)%Z then 12%Z else atoi part0) /\
   style_color style = match nth_error parts 1 with
                       | Some part1 => ColorFromName part1
                       | None => black
                       end /\
   style_align style = match nth_error parts 2 with
                       | Some part2 => AlignFromName part2
                       | None => ALIGN_LEFT
                       end /\
   (style_bottom style = true <->
    exists part3,
      nth_error parts 3 = Some part3 /\ ToLower (Trim part3) = "bottom")) /\
  (params = "" -> style = mkStyle 12 black ALIGN_LEFT false).
Proof.
  intros Hopen Hslash Hclose params parts style.
  assert (Hstyle : style = style_of (update_style st params)).
  { unfold style. rewrite parse_line_cases. cbv zeta.
    rewrite Hopen, Hslash, Hclose.
    destruct (stripped raw) eqn:E; [discriminate Hopen|].
    cbn [empty]. apply style_of_open_page. }
  rewrite Hstyle. split.
  - intros Hne. rewrite (update_style_parts st params Hne). cbv zeta.
    fold parts. cbn [style_size style_color style_align style_bottom].
    pose proof (SplitByComma_not_nil params Hne) as Hparts. fold parts in Hparts.
    split; [|split; [reflexivity | split; [reflexivity|]]].
    + destruct parts as [|p0 rest]; [contradiction|].
      exists p0. split; reflexivity.
    + destruct (nth_error parts 3) as [p3|].
      * rewrite String.eqb_eq. split.
        -- intros H. exists p3. split; [reflexivity | exact H].
        -- intros (q & [= <-] & H). exact H.
      * split; [discriminate | intros (q & [=] & _)].
  - intros Hp. rewrite Hp. reflexivity.
Qed.

Lemma directive_style_witness :
  let st := parse_line (initial_state []) "[x] 0, GREY ,Right, Bottom // foot" in
  style_color (style_of st) = (F32.one_half, F32.one_half, F32.one_half) /\
  style_align (style_of st) = ALIGN_RIGHT /\
  style_bottom (style_of st) = true /\
  style_of (parse_line (parse_line (initial_state []) "[p] 14, red") "[q]")
  = mkStyle 12 black ALIGN_LEFT false.
Proof.
  cbv zeta.
  destruct (directive_style (initial_state [])
              "[x] 0, GREY ,Right, Bottom // foot" 2
              eq_refl eq_refl eq_refl) as [H _].
  destruct (H ltac:(discriminate)) as (_ & Hcolor & Halign & Hbottom).
  split; [rewrite Hcolor; reflexivity|].
  split; [rewrite Halign; reflexivity|].
  split; [apply Hbottom; exists "Bottom"; split; reflexivity|].
  destruct (directive_style (parse_line (initial_state []) "[p] 14, red")
              "[q]" 2 eq_refl eq_refl eq_refl) as [_ Hreset].
  apply Hreset. reflexivity.
Defined.

(* ------------------------------------------------------------------ *)
(** ** Floats that are whole numbers *)

Lemma round24_whole (n : Z) :
  (Z.abs n <= 2 ^ 24)%Z -> F32.round24 (4 * n) = (4 * n)%Z.
Proof.
  intros Hn. unfold F32.round24. cbv zeta.
  destruct (Z.abs (4 * n) <? 2 ^ 24)%Z eqn:Hsmall; [reflexivity|].
  apply Z.ltb_ge in Hsmall.
  assert (Ha : Z.abs (4 * n) = (4 * Z.abs n)%Z) by (rewrite Z.abs_mul; reflexivity).
  set (a := Z.abs (4 * n)) in *.
  assert (Hlo : (24 <= Z.log2 a)%Z).
  { change 24%Z with (Z.log2 (2 ^ 24)). now apply Z.log2_le_mono. }
  assert (Hhi : (Z.log2 a <= 26)%Z).
  { change 26%Z with (Z.log2 (2 ^ 26)). apply Z.log2_le_mono.
    change (2 ^ 26)%Z with (4 * 2 ^ 24)%Z. lia. }
  assert (Hspec : (2 ^ Z.log2 a <= a)%Z).
  { apply Z.log2_spec. change (2 ^ 24)%Z with 16777216%Z in Hsmall. lia. }
  assert (Hexact : forall u, (0 < u)%Z -> (a mod u = 0)%Z ->
                     (Z.sgn (4 * n) * (round_half_even a u * u) = 4 * n)%Z).
  { intros u Hu Hr. unfold round_half_even. cbv zeta. rewrite Hr.
    replace (2 * 0 <? u)%Z with true by (symmetry; apply Z.ltb_lt; lia).
    assert (Hau : (a / u * u = a)%Z).
    { pose proof (Z.div_mod a u ltac:(lia)) as Hd. rewrite Hr in Hd. lia. }
    rewrite Hau. unfold a. rewrite Z.mul_comm. apply Z.abs_sgn. }
  assert (Hcases : Z.log2 a = 24%Z \/ Z.log2 a = 25%Z \/ Z.log2 a = 26%Z) by lia.
  destruct Hcases as [E | [E | E]]; rewrite E in *.
  - apply Hexact; [reflexivity|]. rewrite Ha.
    change (24 - 23)%Z with 1%Z. change (2 ^ 1)%Z with 2%Z.
    replace (4 * Z.abs n)%Z with (2 * Z.abs n * 2)%Z by lia.
    apply Z.mod_mul. lia.
  - apply Hexact; [reflexivity|]. rewrite Ha.
    change (25 - 23)%Z with 2%Z. change (2 ^ 2)%Z with 4%Z.
    rewrite Z.mul_comm. apply Z.mod_mul. lia.
  - apply Hexact; [reflexivity|].
    assert (Ea : a = (2 ^ 26)%Z).
    { change (2 ^ 26)%Z with (4 * 2 ^ 24)%Z in *. lia. }
    rewrite Ea. reflexivity.
Qed.

Lemma of_int_whole (n : Z) :
  (Z.abs n <= 2 ^ 24)%Z -> F32.of_int n = F32.whole n.
Proof.
  intros H. unfold F32.of_int, F32.whole. now rewrite round24_whole.
Qed.


Lemma int32_wrap_small (z : Z) :
  (- 2 ^ 31 <= z <= 2 ^ 31 - 1)%Z -> Int32.wrap z = z.
Proof.
  intros H. unfold Int32.wrap, Int32.modulus, Int32.max_int. cbv zeta.
  change (2 ^ 32)%Z with 4294967296%Z.
  change (2 ^ 31)%Z with 2147483648%Z in *.
  destruct (Z.leb_spec (z mod 4294967296) (2147483648 - 1)) as [Hle | Hgt].
  - destruct (Z.le_gt_cases 0 z) as [Hz | Hz].
    + rewrite Z.mod_small; lia.
    + exfalso.
      assert (Hm : (z mod 4294967296 = z + 4294967296)%Z).
      { symmetry. apply (Z.mod_unique z 4294967296 (-1)); lia. }
      lia.
  - destruct (Z.le_gt_cases 0 z) as [Hz | Hz].
    + exfalso. rewrite Z.mod_small in Hgt; lia.
    + assert (Hm : (z mod 4294967296 = z + 4294967296)%Z).
      { symmetry. apply (Z.mod_unique z 4294967296 (-1)); lia. }
      lia.
Qed.

(** The advance of a line of a moderate font size is [fontSize + 4]. *)
Lemma advance_whole (ls : LineSpec) :
  (0 <= fontSize ls <= 2 ^ 24 - 4)%Z ->
  advance ls = F32.whole (fontSize ls + 4).
Proof.
  intros H. unfold advance, Int32.add.
  change (2 ^ 24)%Z with 16777216%Z in H.
  rewrite int32_wrap_small by (change (2 ^ 31)%Z with 2147483648%Z; lia).
  apply of_int_whole. change (2 ^ 24)%Z with 16777216%Z. lia.
Qed.

(* ------------------------------------------------------------------ *)
(** ** The layout of a page *)

Lemma separate_filter (ls : list LineSpec) :
  forall topLines bottomLines,
    separate ls topLines bottomLines
    = ((topLines ++ filter (fun l => negb (bottomAnchor l)) ls)%list,
       (bottomLines ++ filter bottomAnchor ls)%list).
Proof.
  induction ls as [|l rest IH]; intros topLines bottomLines; cbn [separate filter].
  - now rewrite !app_nil_r.
  - destruct (bottomAnchor l); cbn [negb]; rewrite IH, <- app_assoc; reflexivity.
Qed.

Lemma layout_top_place (topLines : list LineSpec) :
  forall positioned yTop,
    layout_top topLines positioned yTop
    = (positioned ++ place F32.sub topLines yTop)%list.
Proof.
  induction topLines as [|ls rest IH]; intros positioned yTop; cbn [layout_top place].
  - now rewrite app_nil_r.
  - now rewrite IH, <- app_assoc.
Qed.

(** The loop that counts down places the first [n] bottom lines, the last
    of them first. *)
Lemma layout_bottom_place (bottomLines : list LineSpec) (n : nat) :
  forall positioned yBottom,
    n <= List.length bottomLines ->
    layout_bottom bottomLines n positioned yBottom
    = (positioned ++ place F32.add (rev (firstn n bottomLines)) yBottom)%list.
Proof.
  induction n as [|i IH]; intros positioned yBottom Hn; cbn [layout_bottom].
  - cbn. now rewrite app_nil_r.
  - rewrite IH by lia. rewrite <- app_assoc. f_equal.
    assert (Hsplit : firstn (S i) bottomLines
                     = (firstn i bottomLines ++ [nth i bottomLines dummy_line])%list).
    { clear IH. revert i Hn.
      induction bottomLines as [|l rest IHl]; intros i Hn; cbn in Hn; [lia|].
      destruct i as [|i]; [reflexivity|].
      cbn [firstn nth app]. f_equal. apply IHl. lia. }
    rewrite Hsplit, rev_app_distr. reflexivity.
Qed.

Lemma layout_place (page : PageSpec) :
  layout page
  = (place F32.sub (top_lines page) topMarginY
     ++ place F32.add (rev (bottom_lines page)) bottomMarginY)%list.
Proof.
  unfold layout. rewrite separate_filter. cbn [app].
  rewrite layout_top_place, layout_bottom_place by lia.
  cbn [app]. now rewrite firstn_all.
Qed.

Section Place.

(** The facts on [place] that hold for either direction. *)
Variable step : F32.f32 -> F32.f32 -> F32.f32.

Lemma place_length (l : list LineSpec) :
  forall y0, List.length (place step l y0) = List.length l.
Proof.
  induction l as [|ls rest IH]; intros y0; cbn; [reflexivity | now rewrite IH].
Qed.

Lemma place_ls (l : list LineSpec) :
  forall y0 k,
    k < List.length l ->
    PositionedLine.ls (nth k (place step l y0) dummy_entry) = nth k l dummy_line.
Proof.
  induction l as [|ls rest IH]; intros y0 k Hk; cbn in Hk; [lia|].
  destruct k as [|k]; [reflexivity|]. cbn [place nth]. apply IH. lia.
Qed.

Lemma place_first_y (l : list LineSpec) (y0 : F32.f32) :
  0 < List.length l ->
  PositionedLine.y (nth 0 (place step l y0) dummy_entry) = y0.
Proof.
  destruct l; cbn; [lia | reflexivity].
Qed.

Lemma place_next_y (l : list LineSpec) :
  forall y0 k,
    S k < List.length l ->
    PositionedLine.y (nth (S k) (place step l y0) dummy_entry)
    = step (PositionedLine.y (nth k (place step l y0) dummy_entry))
           (advance (nth k l dummy_line)).
Proof.
  induction l as [|ls rest IH]; intros y0 k Hk; cbn in Hk; [lia|].
  destruct k as [|k].
  - destruct rest; cbn in Hk; [lia | reflexivity].
  - cbn [place nth]. apply IH. lia.
Qed.

End Place.




(** The page of the specification's example: one centred red line of
    size 14, at x = (612 - 14 * 0.5 * 5) / 2 = 288.5 and y = 750. *)
Example layout_centered_hello :
  let pages :=
    parse_text ("[page1] 14, red, center" ++ nl ++ "Hello" ++ nl
                ++ "[/page1]" ++ nl) [] in
  pages
  = [mkPageSpec
       [mkLineSpec "Hello" 14 (F32.whole 1) (F32.whole 0) (F32.whole 0)
          ALIGN_CENTER false]] /\
  map (fun e => (F32.show (PositionedLine.x e), F32.show (PositionedLine.y e)))
    (flat_map layout pages)
  = [("288.5", "750")].
Proof. split; reflexivity. Qed.

(** A line of the default style starts at the left margin, x = 72. *)
Example layout_default_hello :
  map (fun e => (PositionedLine.x e, PositionedLine.y e))
    (flat_map layout (parse_text ("[p]" ++ nl ++ "Hello") []))
  = [(F32.whole 72, F32.whole 750)].
Proof. reflexivity. Qed.





(* ------------------------------------------------------------------ *)
(** ** Decimal numbers *)

Lemma digit_char_value (d : Z) :
  (0 <= d <= 9)%Z ->
  isdigit (digit_char d) = true /\
  (Z.of_nat (nat_of_ascii (digit_char d)) - 48 = d)%Z.
Proof.
  intros H.
  assert (Hd : (d = 0 \/ d = 1 \/ d = 2 \/ d = 3 \/ d = 4 \/ d = 5 \/ d = 6
                \/ d = 7 \/ d = 8 \/ d = 9)%Z) by lia.
  repeat (destruct Hd as [-> | Hd]; [split; reflexivity|]).
  subst d. split; reflexivity.
Qed.

Lemma read_digits_digit (d : Z) (s : string) (a : Z) :
  (0 <= d <= 9)%Z ->
  read_digits (String (digit_char d) s) a = read_digits s (10 * a + d).
Proof.
  intros H. destruct (digit_char_value d H) as [Hdig Hval].
  cbn [read_digits]. now rewrite Hdig, Hval.
Qed.

(** What [show_digits] writes: [k] digits that read back as [n]. *)
Lemma show_digits_spec (fuel : nat) :
  forall n acc,
    fuel <> 0 -> (0 <= n < 2 ^ Z.of_nat fuel)%Z ->
    exists k : Z,
      (1 <= k)%Z /\ (n < 10 ^ k)%Z /\ (k = 1 \/ 10 ^ (k - 1) <= n)%Z /\
      String.length (show_digits fuel n acc) = Z.to_nat k + String.length acc /\
      forall a, read_digits (show_digits fuel n acc) a
                = read_digits acc (a * 10 ^ k + n).
Proof.
  induction fuel as [|fuel IH]; intros n acc Hfuel Hn; [contradiction|].
  cbn [show_digits].
  assert (Hmod : (0 <= n mod 10 <= 9)%Z)
    by (pose proof (Z.mod_pos_bound n 10 ltac:(lia)); lia).
  destruct (Z.ltb_spec n 10) as [Hlt | Hge].
  - exists 1%Z. rewrite Z.mod_small by lia.
    repeat split; try lia.
    intros a. rewrite read_digits_digit by lia. f_equal. lia.
  - assert (Hdiv : (0 <= n / 10)%Z) by (apply Z.div_pos; lia).
    assert (Hdm : (n = 10 * (n / 10) + n mod 10)%Z) by (apply Z.div_mod; lia).
    assert (Hpow : (2 ^ Z.of_nat (S fuel) = 2 * 2 ^ Z.of_nat fuel)%Z).
    { rewrite Nat2Z.inj_succ. apply Z.pow_succ_r. lia. }
    assert (Hfuel' : fuel <> 0).
    { intros ->. cbn in Hn. lia. }
    destruct (IH (n / 10)%Z (String (digit_char (n mod 10)) acc) Hfuel'
                ltac:(lia))
      as (k & Hk1 & Hub & Hlb & Hlen & Hread).
    assert (Hp : (10 ^ (k + 1) = 10 * 10 ^ k)%Z).
    { rewrite Z.pow_add_r by lia. lia. }
    exists (k + 1)%Z.
    split; [lia|]. split; [rewrite Hp; lia|]. split.
    + right. replace (k + 1 - 1)%Z with k by lia.
      destruct Hlb as [-> | Hlb]; [cbn; lia|].
      assert (Hp' : (10 ^ k = 10 * 10 ^ (k - 1))%Z).
      { replace k with (k - 1 + 1)%Z at 1 by lia.
        rewrite Z.pow_add_r by lia. lia. }
      lia.
    + split.
      * rewrite Hlen. cbn [String.length]. lia.
      * intros a. rewrite Hread, read_digits_digit by lia.
        f_equal. rewrite Hp. lia.
Qed.

Lemma show_int_spec (z : Z) :
  (0 <= z)%Z ->
  exists k : Z,
    (1 <= k)%Z /\ (z < 10 ^ k)%Z /\ (k = 1 \/ 10 ^ (k - 1) <= z)%Z /\
    String.length (show_int z) = Z.to_nat k /\
    forall a, read_digits (show_int z) a = (a * 10 ^ k + z)%Z.
Proof.
  intros Hz. unfold show_int.
  destruct (Z.ltb_spec z 0) as [Hneg | _]; [lia|].
  assert (Hfuel : (0 <= z < 2 ^ Z.of_nat (S (Z.to_nat (Z.log2 z))))%Z).
  { split; [lia|]. rewrite Nat2Z.inj_succ, Z2Nat.id by apply Z.log2_nonneg.
    destruct (Z.eq_dec z 0) as [-> | Hnz]; [reflexivity|].
    apply Z.log2_spec. lia. }
  destruct (show_digits_spec _ z "" (Nat.neq_succ_0 _) Hfuel)
    as (k & Hk1 & Hub & Hlb & Hlen & Hread).
  exists k. split; [exact Hk1|]. split; [exact Hub|]. split; [exact Hlb|].
  split.
  - rewrite Hlen. cbn. lia.
  - intros a. now rewrite Hread.
Qed.

Lemma read_digits_zeros (j : nat) (s : string) :
  read_digits (zeros j ++ s) 0 = read_digits s 0.
Proof.
  induction j as [|j IH]; [reflexivity|].
  cbn [zeros append]. change "0"%char with (digit_char 0).
  rewrite read_digits_digit by lia. exact IH.
Qed.

(** A field written with [setw] and a fill of zeros reads back as the
    number written. *)
Lemma setw_fill0_value (w : nat) (z : Z) :
  (0 <= z)%Z -> decimal_value (setw_fill0 w (show_int z)) = z.
Proof.
  intros Hz. unfold decimal_value, setw_fill0.
  rewrite read_digits_zeros.
  destruct (show_int_spec z Hz) as (k & _ & _ & _ & _ & Hread).
  rewrite Hread. lia.
Qed.

Lemma zeros_length (j : nat) : String.length (zeros j) = j.
Proof. induction j as [|j IH]; cbn; [reflexivity | now rewrite IH]. Qed.

(** The field is exactly [w] wide when the number has no more than [w]
    digits. *)
Lemma setw_fill0_length (w : nat) (z : Z) :
  w <> 0 -> (0 <= z < 10 ^ Z.of_nat w)%Z ->
  String.length (setw_fill0 w (show_int z)) = w.
Proof.
  intros Hw Hz. unfold setw_fill0.
  destruct (show_int_spec z ltac:(lia)) as (k & Hk1 & _ & Hlb & Hlen & _).
  rewrite length_append, zeros_length, Hlen.
  assert (Hk : (k <= Z.of_nat w)%Z).
  { destruct Hlb as [-> | Hlb]; [lia|].
    destruct (Z.le_gt_cases k (Z.of_nat w)) as [Hle | Hgt]; [exact Hle|].
    exfalso.
    assert (10 ^ Z.of_nat w <= 10 ^ (k - 1))%Z
      by (apply Z.pow_le_mono_r; lia).
    lia. }
  lia.
Qed.

(* ------------------------------------------------------------------ *)
(** ** The objects of the document *)

Lemma kids_loop_spec (n : nat) :
  forall i obj,
    kids_loop n i obj
    = obj ++ concat_all (map kid (seq (firstPageObj + i) n)).
Proof.
  induction n as [|n IH]; intros i obj; cbn [kids_loop seq map concat_all].
  - now rewrite append_nil_r.
  - rewrite IH. rewrite Nat.add_succ_r. unfold kid.
    now rewrite !append_assoc.
Qed.

Lemma page_objects_loop_spec (n : nat) :
  forall i firstContentObj objects,
    page_objects_loop n i firstContentObj objects
    = (objects
       ++ map (fun k => page_object (firstPageObj + k) (firstContentObj + k))
            (seq i n))%list.
Proof.
  induction n as [|n IH]; intros i fc objects;
    cbn [page_objects_loop seq map].
  - now rewrite app_nil_r.
  - rewrite IH, <- app_assoc. reflexivity.
Qed.

Lemma content_objects_loop_spec (pages : list PageSpec) (n : nat) :
  forall i firstContentObj objects,
    content_objects_loop pages n i firstContentObj objects
    = (objects
       ++ map (fun k => content_object (firstContentObj + k)
                          (BuildPageContent (nth k pages (mkPageSpec []))))
            (seq i n))%list.
Proof.
  induction n as [|n IH]; intros i fc objects;
    cbn [content_objects_loop seq map].
  - now rewrite app_nil_r.
  - rewrite IH, <- app_assoc. reflexivity.
Qed.

(** The vector of objects, entry by entry. *)
Lemma build_objects_spec (pages : list PageSpec) :
  build_objects pages
  = ("" :: catalog_object :: pages_object (List.length pages) :: font_object
       :: map (fun k => page_object (4 + k) (4 + List.length pages + k))
            (seq 0 (List.length pages))
       ++ map (fun k => content_object (4 + List.length pages + k)
                          (BuildPageContent (nth k pages (mkPageSpec []))))
            (seq 0 (List.length pages)))%list.
Proof.
  unfold build_objects. cbv zeta.
  rewrite content_objects_loop_spec, page_objects_loop_spec.
  unfold firstPageObj. cbn [app]. reflexivity.
Qed.

Lemma build_objects_length (pages : list PageSpec) :
  List.length (build_objects pages) = 1 + (3 + 2 * List.length pages).
Proof.
  rewrite build_objects_spec. cbn [List.length].
  rewrite length_app, !length_map, !length_seq. lia.
Qed.

Lemma build_objects_page (pages : list PageSpec) (i : nat) :
  1 <= i <= List.length pages ->
  nth (3 + i) (build_objects pages) ""
  = page_object (3 + i) (3 + List.length pages + i).
Proof.
  intros Hi. rewrite build_objects_spec.
  replace (3 + i) with (S (S (S (S (i - 1))))) at 1 by lia.
  cbn [nth]. rewrite app_nth1 by (rewrite length_map, length_seq; lia).
  rewrite (nth_indep _ "" (page_object (4 + 0) (4 + List.length pages + 0)))
    by (rewrite length_map, length_seq; lia).
  rewrite (map_nth (fun k => page_object (4 + k) (4 + List.length pages + k))).
  rewrite seq_nth by lia. f_equal; lia.
Qed.

Lemma build_objects_content (pages : list PageSpec) (i : nat) :
  1 <= i <= List.length pages ->
  nth (3 + List.length pages + i) (build_objects pages) ""
  = content_object (3 + List.length pages + i)
      (BuildPageContent (nth (i - 1) pages (mkPageSpec []))).
Proof.
  intros Hi. rewrite build_objects_spec.
  replace (3 + List.length pages + i)
    with (S (S (S (S (List.length pages + (i - 1)))))) at 1 by lia.
  cbn [nth]. rewrite app_nth2 by (rewrite length_map, length_seq; lia).
  rewrite length_map, length_seq.
  replace (List.length pages + (i - 1) - List.length pages) with (i - 1) by lia.
  rewrite (nth_indep _ ""
             (content_object (4 + List.length pages + 0)
                (BuildPageContent (nth 0 pages (mkPageSpec [])))))
    by (rewrite length_map, length_seq; lia).
  rewrite (map_nth (fun k => content_object (4 + List.length pages + k)
                               (BuildPageContent (nth k pages (mkPageSpec []))))).
  rewrite seq_nth by lia. cbn [Nat.add].
  f_equal; lia.
Qed.

(** Every object starts with its own number. *)
Lemma build_objects_marker (pages : list PageSpec) (i : nat) :
  1 <= i <= 3 + 2 * List.length pages ->
  exists body,
    nth i (build_objects pages) "" = show_nat i ++ " 0 obj" ++ nl ++ body.
Proof.
  intros Hi.
  destruct (Nat.le_gt_cases i 3) as [Hle | Hgt].
  - rewrite build_objects_spec.
    assert (Hc : i = 1 \/ i = 2 \/ i = 3) by lia.
    destruct Hc as [-> | [-> | ->]]; cbn [nth].
    + eexists. unfold catalog_object. reflexivity.
    + eexists. unfold pages_object. rewrite kids_loop_spec.
      change (show_nat 2) with "2".
      rewrite !append_assoc. reflexivity.
    + eexists. unfold font_object. reflexivity.
  - destruct (Nat.le_gt_cases i (3 + List.length pages)) as [Hp | Hc].
    + replace i with (3 + (i - 3)) by lia.
      rewrite build_objects_page by lia.
      eexists. unfold page_object. reflexivity.
    + replace i with (3 + List.length pages + (i - 3 - List.length pages)) by lia.
      rewrite build_objects_content by lia.
      eexists. unfold content_object. cbv zeta. reflexivity.
Qed.

(* ------------------------------------------------------------------ *)
(** ** The byte stream *)

Lemma set_nth_length {A : Type} (i : nat) (v : A) (l : list A) :
  List.length (set_nth i v l) = List.length l.
Proof.
  revert i. induction l as [|a l IH]; intros [|i]; cbn; auto.
Qed.

Lemma set_nth_same {A : Type} (i : nat) (v d : A) (l : list A) :
  i < List.length l -> nth i (set_nth i v l) d = v.
Proof.
  revert i. induction l as [|a l IH]; intros [|i] H; cbn in *; try lia.
  - reflexivity.
  - apply IH. lia.
Qed.

Lemma set_nth_other {A : Type} (i k : nat) (v d : A) (l : list A) :
  k <> i -> nth k (set_nth i v l) d = nth k l d.
Proof.
  revert i k. induction l as [|a l IH]; intros [|i] [|k] H; cbn; auto.
  now contradiction H.
Qed.

Lemma concat_all_app (l1 l2 : list string) :
  concat_all (l1 ++ l2) = concat_all l1 ++ concat_all l2.
Proof.
  induction l1 as [|s l1 IH]; cbn; [reflexivity|].
  now rewrite IH, append_assoc.
Qed.

(** One more object written: the strings from [i] on, one longer. *)
Lemma concat_all_next (objects : list string) :
  forall i n,
    concat_all (firstn (S n) (skipn i objects))
    = nth i objects "" ++ concat_all (firstn n (skipn (S i) objects)).
Proof.
  induction objects as [|o rest IH]; intros i n.
  - destruct i; destruct n; reflexivity.
  - destruct i as [|i]; [reflexivity|].
    cbn [skipn nth]. apply IH.
Qed.

Lemma concat_all_snoc (objects : list string) (i n : nat) :
  concat_all (firstn (S n) (skipn i objects))
  = concat_all (firstn n (skipn i objects)) ++ nth (i + n) objects "".
Proof.
  revert i. induction n as [|n IH]; intros i.
  - rewrite concat_all_next. cbn [firstn concat_all].
    now rewrite Nat.add_0_r, append_nil_r.
  - rewrite concat_all_next, IH, (concat_all_next objects i n).
    rewrite append_assoc. do 2 f_equal. f_equal. lia.
Qed.

(** The loop that writes the objects: the stream grows by the objects from
    [i] on, and [offsets] gets, for each of them, the length of the stream
    at the time it is written. *)
Lemma write_objects_loop_spec (objects : list string) (n : nat) :
  forall i pdf offsets,
    fst (write_objects_loop objects n i pdf offsets)
    = pdf ++ concat_all (firstn n (skipn i objects)) /\
    List.length (snd (write_objects_loop objects n i pdf offsets))
    = List.length offsets /\
    (forall k, k < i ->
       nth k (snd (write_objects_loop objects n i pdf offsets)) 0%Z
       = nth k offsets 0%Z) /\
    (forall k, i <= k < i + n -> k < List.length offsets ->
       nth k (snd (write_objects_loop objects n i pdf offsets)) 0%Z
       = tellp (pdf ++ concat_all (firstn (k - i) (skipn i objects)))).
Proof.
  induction n as [|n IH]; intros i pdf offsets; cbn [write_objects_loop].
  - cbn [fst snd firstn concat_all]. rewrite append_nil_r.
    repeat split; auto. intros k Hk. lia.
  - destruct (IH (S i) (pdf ++ nth i objects "")
                (set_nth i (tellp pdf) offsets))
      as (Hpdf & Hlen & Hbelow & Hin).
    split; [|split; [|split]].
    + rewrite Hpdf, append_assoc, concat_all_next. reflexivity.
    + now rewrite Hlen, set_nth_length.
    + intros k Hk. rewrite Hbelow by lia. apply set_nth_other. lia.
    + intros k Hk Hklen.
      destruct (Nat.eq_dec k i) as [-> | Hne].
      * rewrite Hbelow by lia. rewrite set_nth_same by lia.
        rewrite Nat.sub_diag. cbn [firstn concat_all].
        now rewrite append_nil_r.
      * rewrite Hin by (rewrite ?set_nth_length; lia).
        f_equal. rewrite append_assoc. f_equal.
        replace (k - i) with (S (k - S i)) by lia.
        now rewrite concat_all_next.
Qed.

Lemma xref_loop_spec (offsets : list Z) (n : nat) :
  forall i pdf,
    xref_loop offsets n i pdf
    = pdf ++ concat_all (map (fun k => xref_entry (nth k offsets 0%Z)) (seq i n)).
Proof.
  induction n as [|n IH]; intros i pdf; cbn [xref_loop seq map concat_all].
  - now rewrite append_nil_r.
  - rewrite IH. unfold xref_entry. now rewrite !append_assoc.
Qed.

(** The whole output: header, objects, xref table with one entry for each
    object, trailer. *)
Lemma assemble_spec (pages : list PageSpec) :
  let numObjects := 3 + 2 * List.length pages in
  assemble pages
  = pdf_body pages
    ++ "xref" ++ nl
    ++ "0 " ++ show_nat (numObjects + 1) ++ nl
    ++ "0000000000 65535 f " ++ nl
    ++ concat_all
         (map (fun i => xref_entry (Z.of_nat (object_offset pages i)))
              (seq 1 numObjects))
    ++ "trailer" ++ nl
    ++ "<< /Size " ++ show_nat (numObjects + 1) ++ " /Root 1 0 R >>" ++ nl
    ++ "startxref" ++ nl
    ++ show_nat (String.length (pdf_body pages)) ++ nl
    ++ "%%EOF" ++ nl.
Proof.
  intros numObjects. unfold assemble. cbv zeta.
  assert (Hn : List.length (build_objects pages) - 1 = numObjects).
  { rewrite build_objects_length. unfold numObjects. lia. }
  rewrite Hn.
  destruct (write_objects_loop_spec (build_objects pages) numObjects 1
              pdf_header (repeat 0%Z (numObjects + 1)))
    as (Hpdf & Hlen & _ & Hoff).
  destruct (write_objects_loop (build_objects pages) numObjects 1 pdf_header
              (repeat 0%Z (numObjects + 1))) as [pdf offsets].
  cbn [fst snd] in Hpdf, Hlen, Hoff.
  rewrite repeat_length in Hlen, Hoff.
  assert (Hbody : pdf = pdf_body pages).
  { rewrite Hpdf. unfold pdf_body. do 2 f_equal.
    apply firstn_all2. rewrite length_skipn, build_objects_length.
    unfold numObjects. lia. }
  rewrite xref_loop_spec.
  assert (Hentries :
            map (fun k => xref_entry (nth k offsets 0%Z)) (seq 1 numObjects)
            = map (fun i => xref_entry (Z.of_nat (object_offset pages i)))
                (seq 1 numObjects)).
  { apply map_ext_in. intros k Hk. apply in_seq in Hk.
    rewrite Hoff by lia. reflexivity. }
  rewrite Hentries, Hbody. unfold tellp, show_nat.
  rewrite !append_assoc. reflexivity.
Qed.

Lemma substring_prefix (b c : string) :
  String.substring 0 (String.length b) (b ++ c) = b.
Proof.
  induction b as [|x b IH]; cbn.
  - destruct c; reflexivity.
  - now rewrite IH.
Qed.

Lemma substring_middle (a b c : string) :
  String.substring (String.length a) (String.length b) (a ++ b ++ c) = b.
Proof.
  induction a as [|x a IH]; cbn; [apply substring_prefix | exact IH].
Qed.

Lemma concat_all_split (l : list string) :
  forall j,
    concat_all l
    = concat_all (firstn j l) ++ nth j l "" ++ concat_all (skipn (S j) l).
Proof.
  induction l as [|s l IH]; intros j.
  - destruct j; reflexivity.
  - destruct j as [|j]; [reflexivity|].
    cbn [firstn nth skipn concat_all]. now rewrite append_assoc, <- IH.
Qed.

Lemma nth_skipn_1 (objects : list string) (i : nat) :
  1 <= i -> nth (i - 1) (skipn 1 objects) "" = nth i objects "".
Proof.
  intros Hi. destruct i as [|i]; [lia|].
  replace (S i - 1) with i by lia.
  destruct objects as [|o rest]; [destruct i; reflexivity | reflexivity].
Qed.

(** The text of object [i] lies in the output at [object_offset]. *)
Lemma object_at_offset (pages : list PageSpec) (i : nat) :
  1 <= i ->
  String.substring (object_offset pages i)
    (String.length (nth i (build_objects pages) "")) (assemble pages)
  = nth i (build_objects pages) "".
Proof.
  intros Hi. pose proof (assemble_spec pages) as Hpdf. cbv zeta in Hpdf.
  rewrite Hpdf. unfold pdf_body, object_offset.
  rewrite (concat_all_split (skipn 1 (build_objects pages)) (i - 1)).
  rewrite nth_skipn_1 by lia.
  rewrite <- (append_assoc pdf_header).
  rewrite !append_assoc.
  rewrite <- (append_assoc pdf_header).
  apply substring_middle.
Qed.

(** C1. For a document of N >= 1 pages the assembler makes 3 + 2N
    numbered objects and writes them in the order of their numbers, each
    starting with its number: object 1 is the catalog and refers to
    object 2; object 2 is the page tree, its [/Kids] are the objects 4 to
    3 + N in order and its [/Count] is N; object 3 is the font; the objects
    4 to 3 + N are the page dictionaries and the objects 4 + N to 3 + 2N the
    content streams; the page dictionary 3 + i has the content stream
    3 + N + i as its [/Contents]. *)
Theorem object_numbering (pages : list PageSpec) :
  let N := List.length pages in
  let objects := build_objects pages in
  1 <= N ->
  List.length objects = 1 + (3 + 2 * N) /\
  nth 0 objects "" = "" /\
  (forall i, 1 <= i <= 3 + 2 * N ->
     exists body, nth i objects "" = show_nat i ++ " 0 obj" ++ nl ++ body) /\
  (exists tail,
     assemble pages
     = pdf_header ++ concat_all (skipn 1 objects) ++ "xref" ++ nl ++ tail) /\
  nth 1 objects ""
  = "1 0 obj" ++ nl ++ "<< /Type /Catalog /Pages 2 0 R >>" ++ nl
    ++ "endobj" ++ nl /\
  nth 2 objects ""
  = "2 0 obj" ++ nl ++ "<< /Type /Pages /Kids ["
    ++ concat_all (map (fun k => " " ++ show_nat k ++ " 0 R") (seq 4 N))
    ++ " ] /Count " ++ show_nat N ++ " >>" ++ nl ++ "endobj" ++ nl /\
  nth 3 objects ""
  = "3 0 obj" ++ nl
    ++ "<< /Type /Font /Subtype /Type1 /BaseFont /Helvetica >>" ++ nl
    ++ "endobj" ++ nl /\
  (forall i, 1 <= i <= N ->
     nth (3 + i) objects ""
     = show_nat (3 + i) ++ " 0 obj" ++ nl
       ++ "<< /Type /Page" ++ nl
       ++ "   /Parent 2 0 R" ++ nl
       ++ "   /MediaBox [0 0 612 792]" ++ nl
       ++ "   /Resources << /Font << /F1 3 0 R >> >>" ++ nl
       ++ "   /Contents " ++ show_nat (3 + N + i) ++ " 0 R" ++ nl
       ++ ">>" ++ nl
       ++ "endobj" ++ nl) /\
  (forall i, 1 <= i <= N ->
     let content := BuildPageContent (nth (i - 1) pages (mkPageSpec [])) in
     nth (3 + N + i) objects ""
     = show_nat (3 + N + i) ++ " 0 obj" ++ nl
       ++ "<< /Length "
       ++ show_int (Int32.wrap (Z.of_nat (String.length content)))
       ++ " >>" ++ nl
       ++ "stream" ++ nl
       ++ content
       ++ nl ++ "endstream" ++ nl
       ++ "endobj" ++ nl).
Proof.
  intros N objects HN. subst N objects.
  split; [apply build_objects_length|].
  split; [now rewrite build_objects_spec|].
  split; [intros i Hi; now apply build_objects_marker|].
  split.
  { pose proof (assemble_spec pages) as Hpdf. cbv zeta in Hpdf.
    eexists. rewrite Hpdf. unfold pdf_body.
    rewrite !append_assoc. reflexivity. }
  split; [now rewrite build_objects_spec|].
  split.
  { rewrite build_objects_spec. cbn [nth]. unfold pages_object.
    rewrite kids_loop_spec. unfold kid, firstPageObj.
    rewrite !append_assoc. reflexivity. }
  split; [now rewrite build_objects_spec|].
  split.
  - intros i Hi. now rewrite build_objects_page.
  - intros i Hi. cbv zeta. now rewrite build_objects_content.
Qed.

Lemma object_numbering_witness :
  List.length (build_objects (parse_text ("[p]" ++ nl ++ "Hello") [])) = 6 /\
  nth 4 (build_objects (parse_text ("[p]" ++ nl ++ "Hello") [])) ""
  = "4 0 obj" ++ nl
    ++ "<< /Type /Page" ++ nl
    ++ "   /Parent 2 0 R" ++ nl
    ++ "   /MediaBox [0 0 612 792]" ++ nl
    ++ "   /Resources << /Font << /F1 3 0 R >> >>" ++ nl
    ++ "   /Contents 5 0 R" ++ nl
    ++ ">>" ++ nl
    ++ "endobj" ++ nl.
Proof.
  destruct (object_numbering (parse_text ("[p]" ++ nl ++ "Hello") [])
              (le_n 1))
    as (Hlen & _ & _ & _ & _ & _ & _ & Hpage & _).
  split; [exact Hlen | exact (Hpage 1 (conj (le_n 1) (le_n 1)))].
Defined.

(** C2. For an input that yields at least one page, the xref table has
    one entry for each object, in the order of the numbers; the entry of
    object [i] holds, zero-padded to ten digits, the offset in the output,
    counted from its very first byte, at which the text of object [i]
    starts with its marker [i 0 obj]; the header and the binary marker
    comment come before object 1. *)
Theorem xref_offsets (contents : string) :
  let pages := parse_text contents [] in
  let pdf := assemble pages in
  let numObjects := 3 + 2 * List.length pages in
  pages <> [] ->
  pdf
  = pdf_body pages
    ++ "xref" ++ nl
    ++ "0 " ++ show_nat (numObjects + 1) ++ nl
    ++ "0000000000 65535 f " ++ nl
    ++ concat_all
         (map (fun i =>
                 setw_fill0 10 (show_int (Z.of_nat (object_offset pages i)))
                 ++ " 00000 n " ++ nl)
              (seq 1 numObjects))
    ++ "trailer" ++ nl
    ++ "<< /Size " ++ show_nat (numObjects + 1) ++ " /Root 1 0 R >>" ++ nl
    ++ "startxref" ++ nl
    ++ show_nat (String.length (pdf_body pages)) ++ nl
    ++ "%%EOF" ++ nl /\
  object_offset pages 1 = String.length pdf_header /\
  forall i, 1 <= i <= numObjects ->
    let object := nth i (build_objects pages) "" in
    let field := setw_fill0 10 (show_int (Z.of_nat (object_offset pages i))) in
    String.substring (object_offset pages i) (String.length object) pdf
    = object /\
    (exists body, object = show_nat i ++ " 0 obj" ++ nl ++ body) /\
    decimal_value field = Z.of_nat (object_offset pages i) /\
    ((Z.of_nat (object_offset pages i) < 10 ^ 10)%Z ->
     String.length field = 10).
Proof.
  intros pages pdf numObjects Hpages.
  split; [apply assemble_spec|].
  split.
  { unfold object_offset. cbn [Nat.sub firstn concat_all].
    now rewrite append_nil_r. }
  intros i Hi object field.
  split; [apply object_at_offset; lia|].
  split; [apply build_objects_marker; exact Hi|].
  split; [apply setw_fill0_value; lia|].
  intros Hsmall. apply setw_fill0_length; [discriminate|].
  change (Z.of_nat 10) with 10%Z. lia.
Qed.

Lemma xref_offsets_witness :
  String.substring 193 8
    (assemble (parse_text ("[p]" ++ nl ++ "Hello") []))
  = "4 0 obj" ++ nl /\
  decimal_value "0000000193" = 193%Z.
Proof.
  destruct (xref_offsets ("[p]" ++ nl ++ "Hello") ltac:(discriminate))
    as (Hpdf & _ & Hobjects).
  destruct (Hobjects 4 (conj (le_S _ _ (le_S _ _ (le_S _ _ (le_n 1))))
                             (le_S _ _ (le_n 4))))
    as (Hat & _ & Hvalue & _).
  split.
  - apply (f_equal (String.substring 0 8)) in Hat. exact Hat.
  - exact Hvalue.
Defined.

(* ------------------------------------------------------------------ *)
(** ** The program as a whole *)

(** What [main] does once it has its argument, by what it meets. *)
Lemma main_cases (w : World) :
  2 <= List.length (argv w) ->
  let name := nth 1 (argv w) "" in
  main w =
  match open_in w (name ++ ".txt") with
  | None =>
      mkOutcome 1 ("Failed to open layout file: " ++ (name ++ ".txt") ++ nl)
        "" None
  | Some contents =>
      match parse_text contents [] with
      | [] => mkOutcome 1 ("No pages parsed from layout file." ++ nl) "" None
      | page :: rest =>
          if open_out w (name ++ ".pdf")
          then mkOutcome 0 "" ("Saved to '" ++ (name ++ ".pdf") ++ "'" ++ nl)
                 (Some (name ++ ".pdf",
                        write_out w (name ++ ".pdf") (assemble (page :: rest))))
          else mkOutcome 1
                 ("Failed to open output PDF: " ++ (name ++ ".pdf") ++ nl)
                 "" None
      end
  end.
Proof.
  intros Hargc name. unfold main. cbv zeta.
  destruct (Nat.ltb_spec (List.length (argv w)) 2) as [Hlt | _]; [lia|].
  fold name. unfold ParseLayoutFile.
  destruct (open_in w (name ++ ".txt")) as [contents|]; [|reflexivity].
  cbn [negb]. destruct (parse_text contents []) as [|page rest]; [reflexivity|].
  destruct (open_out w (name ++ ".pdf")); reflexivity.
Qed.

(** C8. The program exits with code 1 exactly when it has no argument,
    or cannot open [<name>.txt], or parses no page from it, or cannot open
    [<name>.pdf] for writing, and then stores nothing; in every other case
    it sends the whole PDF to [<name>.pdf] in one write, prints the
    confirmation and exits with code 0.  It does not test the stream after
    the write: the file holds the whole PDF when the write succeeds. *)
Theorem exit_codes (w : World) :
  let name := nth 1 (argv w) "" in
  let input := open_in w (name ++ ".txt") in
  let failure :=
    List.length (argv w) < 2 \/
    input = None \/
    (exists contents, input = Some contents /\ parse_text contents [] = []) \/
    open_out w (name ++ ".pdf") = false in
  (exit_code (main w) = 1%Z <-> failure) /\
  (failure -> written (main w) = None /\ cout (main w) = "") /\
  (~ failure ->
   exists contents,
     input = Some contents /\
     exit_code (main w) = 0%Z /\
     written (main w)
     = Some (name ++ ".pdf",
             write_out w (name ++ ".pdf") (assemble (parse_text contents []))) /\
     (write_out w (name ++ ".pdf") (assemble (parse_text contents []))
      = assemble (parse_text contents []) ->
      written (main w)
      = Some (name ++ ".pdf", assemble (parse_text contents []))) /\
     cout (main w) = "Saved to '" ++ name ++ ".pdf" ++ "'" ++ nl).
Proof.
  intros name input failure.
  destruct (Nat.lt_ge_cases (List.length (argv w)) 2) as [Hargc | Hargc].
  - assert (Hmain : main w
                    = mkOutcome 1 ("Usage: layout2pdf <filename>" ++ nl) "" None).
    { unfold main. cbv zeta.
      destruct (Nat.ltb_spec (List.length (argv w)) 2); [reflexivity | lia]. }
    assert (Hf : failure) by (left; exact Hargc).
    rewrite Hmain. cbn [exit_code written cout].
    split; [split; auto|]. split; [auto | intros Hn; contradiction].
  - rewrite (main_cases w Hargc). fold name. fold input.
    destruct input as [contents|] eqn:Hin.
    + destruct (parse_text contents []) as [|page rest] eqn:Hparse.
      * assert (Hf : failure).
        { right; right; left. exists contents. split; [reflexivity | exact Hparse]. }
        cbn [exit_code written cout].
        split; [split; auto|]. split; [auto | intros Hn; contradiction].
      * destruct (open_out w (name ++ ".pdf")) eqn:Hout; cbn [exit_code written cout].
        -- assert (Hnf : ~ failure).
           { intros [Hlt | [Hnone | [(c & Hc & Hp) | Hfalse]]].
             - lia.
             - discriminate Hnone.
             - injection Hc as <-. rewrite Hparse in Hp. discriminate Hp.
             - discriminate Hfalse. }
           split; [split; [discriminate | intros Hf; contradiction]|].
           split; [intros Hf; contradiction|].
           intros _. exists contents. rewrite Hparse, append_assoc.
           split; [reflexivity|]. split; [reflexivity|].
           split; [reflexivity|]. split; [|reflexivity].
           intros Hwrite. now rewrite Hwrite.
        -- assert (Hf : failure) by (right; right; right; reflexivity).
           split; [split; auto|]. split; [auto | intros Hn; contradiction].
    + assert (Hf : failure) by (right; left; reflexivity).
      cbn [exit_code written cout].
      split; [split; auto|]. split; [auto | intros Hn; contradiction].
Qed.

Lemma exit_codes_witness :
  let w := mkWorld ["layout2pdf"; "doc"]
             (fun f => if f =? "doc.txt" then Some ("[p]" ++ nl ++ "Hello")
                       else None)
             (fun _ => true)
             (fun _ data => data) in
  exit_code (main w) = 0%Z /\
  cout (main w) = "Saved to 'doc.pdf'" ++ nl /\
  written (main w)
  = Some ("doc.pdf", assemble (parse_text ("[p]" ++ nl ++ "Hello") [])) /\
  exit_code (main (mkWorld ["layout2pdf"] (open_in w) (open_out w)
                     (write_out w))) = 1%Z.
Proof.
  intros w.
  assert (Hok : ~ (List.length (argv w) < 2 \/
                   open_in w "doc.txt" = None \/
                   (exists contents,
                      open_in w "doc.txt" = Some contents /\
                      parse_text contents [] = []) \/
                   open_out w "doc.pdf" = false)).
  { intros [Hlt | [Hnone | [(c & Hc & Hp) | Hfalse]]].
    - cbn in Hlt. lia.
    - discriminate Hnone.
    - injection Hc as <-. discriminate Hp.
    - discriminate Hfalse. }
  destruct (exit_codes w) as (_ & _ & Hsuccess).
  destruct (Hsuccess Hok) as (contents & Hin & Hexit & _ & Hfull & Hcout).
  injection Hin as <-.
  split; [exact Hexit|]. split; [exact Hcout|].
  split; [exact (Hfull eq_refl)|].
  apply (exit_codes (mkWorld ["layout2pdf"] (open_in w) (open_out w)
                       (write_out w))).
  left. cbn. lia.
Defined.

(** The claim as the specification words it does not hold where the
    file opens and the write then fails: none of the four cases applies,
    the program prints the confirmation and exits with code 0, and the
    file holds nothing of the PDF. *)
Lemma exit_codes_counterexample :
  let contents := "[p]" ++ nl ++ "Hello" in
  let w := mkWorld ["layout2pdf"; "doc"]
             (fun f => if f =? "doc.txt" then Some contents else None)
             (fun _ => true)
             (fun _ _ => "") in
  List.length (argv w) = 2 /\
  open_in w "doc.txt" = Some contents /\
  List.length (parse_text contents []) = 1 /\
  open_out w "doc.pdf" = true /\
  exit_code (main w) = 0%Z /\
  cout (main w) = "Saved to 'doc.pdf'" ++ nl /\
  written (main w) = Some ("doc.pdf", "") /\
  written (main w) <> Some ("doc.pdf", assemble (parse_text contents [])).
Proof.
  cbv zeta. repeat (split; [reflexivity|]).
  intros H. apply (f_equal (option_map (fun f => String.length (snd f)))) in H.
  vm_compute in H. discriminate H.
Qed.

(* ------------------------------------------------------------------ *)
(** ** Trimming and the resolution of names *)

Lemma trim_end_le (s : string) (start : nat) :
  forall end_, trim_end s start end_ <= end_.
Proof.
  induction end_ as [|e IH]; cbn [trim_end]; [lia|].
  destruct (Nat.ltb start (S e) && isspace (char_at s e)); lia.
Qed.

Lemma trim_end_shift (c : ascii) (s : string) (start : nat) :
  forall end_,
    trim_end (String c s) (S start) (S end_) = S (trim_end s start end_).
Proof.
  induction end_ as [|e IH].
  - cbn [trim_end]. destruct start; reflexivity.
  - change (trim_end (String c s) (S start) (S (S e)))
      with (if Nat.ltb (S start) (S (S e)) && isspace (char_at s e)
            then trim_end (String c s) (S start) (S e) else S (S e)).
    cbn [trim_end].
    change (Nat.ltb (S start) (S (S e))) with (Nat.ltb start (S e)).
    destruct (Nat.ltb start (S e) && isspace (char_at s e));
      [exact IH | reflexivity].
Qed.

Lemma Trim_skip_space (c : ascii) (s : string) :
  isspace c = true -> Trim (String c s) = Trim s.
Proof.
  intros Hc. unfold Trim. cbn [trim_start String.length]. rewrite Hc.
  rewrite trim_end_shift. reflexivity.
Qed.

Lemma trim_end_cons (c : ascii) (s : string) :
  forall end_,
    trim_end (String c s) 0 (S end_)
    = match trim_end s 0 end_ with
      | O => if isspace c then 0 else 1
      | S k => S (S k)
      end.
Proof.
  induction end_ as [|e IH].
  - cbn. destruct (isspace c); reflexivity.
  - change (trim_end (String c s) 0 (S (S e)))
      with (if Nat.ltb 0 (S (S e)) && isspace (char_at s e)
            then trim_end (String c s) 0 (S e) else S (S e)).
    cbn [trim_end Nat.ltb Nat.leb andb].
    destruct (isspace (char_at s e)); [exact IH | reflexivity].
Qed.

Lemma substring_trim_end_rtrim (s : string) :
  String.substring 0 (trim_end s 0 (String.length s)) s = rtrim s.
Proof.
  induction s as [|c s IH]; [reflexivity|].
  cbn [String.length rtrim]. rewrite trim_end_cons.
  pose proof (trim_end_le s 0 (String.length s)) as Hle.
  destruct (trim_end s 0 (String.length s)) as [|k] eqn:Hk.
  - rewrite <- IH. rewrite substring_zero_length. cbn [empty andb].
    destruct (isspace c); cbn; [reflexivity|].
    now rewrite substring_zero_length.
  - rewrite <- IH. destruct s as [|c2 s2]; [cbn in Hle; lia|].
    cbn [String.substring empty andb]. reflexivity.
Qed.

(** [Trim] is the removal of the white space in front, then of the white
    space behind. *)
Lemma Trim_rtrim (s : string) : Trim s = rtrim (skip_spaces s).
Proof.
  induction s as [|c s IH]; [reflexivity|].
  cbn [skip_spaces]. destruct (isspace c) eqn:Hc.
  - now rewrite Trim_skip_space.
  - unfold Trim. cbn [trim_start]. rewrite Hc, Nat.sub_0_r.
    apply substring_trim_end_rtrim.
Qed.

Lemma skip_spaces_front (s : string) :
  exists ws, s = ws ++ skip_spaces s /\ all_space ws = true.
Proof.
  induction s as [|c s (ws & Hs & Hws)]; [now exists ""|].
  cbn [skip_spaces]. destruct (isspace c) eqn:Hc.
  - exists (String c ws). cbn. rewrite Hc, Hws. split; [now f_equal | reflexivity].
  - now exists "".
Qed.

Lemma rtrim_back (s : string) :
  exists ws, s = rtrim s ++ ws /\ all_space ws = true.
Proof.
  induction s as [|c s (ws & Hs & Hws)]; [now exists ""|].
  cbn [rtrim]. destruct (empty (rtrim s) && isspace c) eqn:Hcond.
  - apply andb_true_iff in Hcond as [He Hc].
    apply empty_true in He. rewrite He in Hs. cbn in Hs.
    exists (String c s). split; [reflexivity|].
    cbn. rewrite Hc. cbn. now rewrite Hs.
  - exists ws. cbn. split; [now f_equal | exact Hws].
Qed.

Lemma rtrim_last (s : string) :
  forall u c, rtrim s = u ++ String c "" -> isspace c = false.
Proof.
  induction s as [|a s IH]; intros u c H; cbn [rtrim] in H.
  - destruct u; discriminate H.
  - destruct (empty (rtrim s) && isspace a) eqn:Hcond.
    + destruct u; discriminate H.
    + destruct u as [|a' u'].
      * cbn in H. injection H as -> Hr. rewrite Hr in Hcond. exact Hcond.
      * cbn in H. injection H as _ Hr. exact (IH _ _ Hr).
Qed.

Lemma rtrim_first (s : string) :
  forall c u, rtrim s = String c u -> exists s', s = String c s'.
Proof.
  destruct s as [|a s]; intros c u H; cbn [rtrim] in H; [discriminate|].
  destruct (empty (rtrim s) && isspace a); [discriminate|].
  injection H as -> _. now exists s.
Qed.

Lemma skip_spaces_first (s : string) :
  forall c u, skip_spaces s = String c u -> isspace c = false.
Proof.
  induction s as [|a s IH]; intros c u H; cbn [skip_spaces] in H;
    [discriminate|].
  destruct (isspace a) eqn:Ha; [exact (IH _ _ H)|].
  injection H as <- _. exact Ha.
Qed.

Lemma rtrim_idempotent (s : string) : rtrim (rtrim s) = rtrim s.
Proof.
  induction s as [|a s IH]; [reflexivity|]. cbn [rtrim].
  destruct (empty (rtrim s) && isspace a) eqn:Hcond; [reflexivity|].
  cbn [rtrim]. now rewrite IH, Hcond.
Qed.

Lemma Trim_first_not_space (s : string) (c : ascii) (rest : string) :
  Trim s = String c rest -> isspace c = false.
Proof.
  rewrite Trim_rtrim. intros H.
  destruct (rtrim_first _ _ _ H) as (s' & Hs').
  exact (skip_spaces_first s _ _ Hs').
Qed.

(** X1. [Trim] takes away white space only, from both ends, and all of
    it: the string is the trimmed one between two runs of white space, and
    the trimmed string neither starts nor ends with white space. *)
Theorem Trim_borders (s : string) :
  (exists front back,
     s = front ++ Trim s ++ back /\
     all_space front = true /\ all_space back = true) /\
  (forall c rest, Trim s = String c rest -> isspace c = false) /\
  (forall rest c, Trim s = rest ++ String c "" -> isspace c = false).
Proof.
  split; [|split].
  - rewrite Trim_rtrim.
    destruct (skip_spaces_front s) as (front & Hs & Hfront).
    destruct (rtrim_back (skip_spaces s)) as (back & Ht & Hback).
    exists front, back. split; [|split; assumption].
    rewrite <- Ht. exact Hs.
  - apply Trim_first_not_space.
  - rewrite Trim_rtrim. intros rest c H. exact (rtrim_last _ _ _ H).
Qed.

Lemma Trim_borders_witness :
  Trim "  (a b)  " = "(a b)" /\ isspace ")" = false.
Proof.
  split; [reflexivity|].
  destruct (Trim_borders "  (a b)  ") as (_ & _ & Hlast).
  exact (Hlast "(a b" ")"%char eq_refl).
Defined.

Lemma Trim_fixed (s : string) : Trim (Trim s) = Trim s.
Proof.
  rewrite (Trim_rtrim (Trim s)).
  assert (Hskip : skip_spaces (Trim s) = Trim s).
  { destruct (Trim s) as [|c rest] eqn:Ht; [reflexivity|].
    cbn [skip_spaces]. now rewrite (Trim_first_not_space s c rest Ht). }
  rewrite Hskip, Trim_rtrim. apply rtrim_idempotent.
Qed.

Lemma isspace_tolower (c : ascii) : isspace (tolower c) = isspace c.
Proof.
  destruct c as [[] [] [] [] [] [] [] []]; reflexivity.
Qed.

Lemma tolower_idempotent (c : ascii) : tolower (tolower c) = tolower c.
Proof.
  destruct c as [[] [] [] [] [] [] [] []]; reflexivity.
Qed.

Lemma skip_spaces_ToLower (s : string) :
  skip_spaces (ToLower s) = ToLower (skip_spaces s).
Proof.
  induction s as [|c s IH]; [reflexivity|].
  cbn [ToLower skip_spaces]. rewrite isspace_tolower.
  destruct (isspace c); [exact IH | reflexivity].
Qed.

Lemma rtrim_ToLower (s : string) : rtrim (ToLower s) = ToLower (rtrim s).
Proof.
  induction s as [|c s IH]; [reflexivity|].
  cbn [ToLower rtrim]. rewrite IH, isspace_tolower.
  assert (He : empty (ToLower (rtrim s)) = empty (rtrim s))
    by (destruct (rtrim s); reflexivity).
  rewrite He. destruct (empty (rtrim s) && isspace c); reflexivity.
Qed.

Lemma Trim_ToLower (s : string) : Trim (ToLower s) = ToLower (Trim s).
Proof.
  now rewrite !Trim_rtrim, skip_spaces_ToLower, rtrim_ToLower.
Qed.

Lemma skip_spaces_app (ws s : string) :
  all_space ws = true -> skip_spaces (ws ++ s) = skip_spaces s.
Proof.
  induction ws as [|c ws IH]; [reflexivity|].
  cbn [all_space append skip_spaces]. intros H.
  apply andb_true_iff in H as [Hc Hws]. rewrite Hc. now apply IH.
Qed.

Lemma rtrim_all_space (ws : string) : all_space ws = true -> rtrim ws = "".
Proof.
  induction ws as [|c ws IH]; [reflexivity|].
  cbn [all_space rtrim]. intros H.
  apply andb_true_iff in H as [Hc Hws]. now rewrite (IH Hws), Hc.
Qed.

Lemma rtrim_app (s ws : string) :
  all_space ws = true -> rtrim (s ++ ws) = rtrim s.
Proof.
  intros Hws. induction s as [|c s IH]; [now apply rtrim_all_space|].
  cbn [append rtrim]. now rewrite IH.
Qed.

Lemma rtrim_skip_spaces_app (s ws : string) :
  all_space ws = true ->
  rtrim (skip_spaces (s ++ ws)) = rtrim (skip_spaces s).
Proof.
  intros Hws. induction s as [|c s IH].
  - cbn [append skip_spaces rtrim].
    destruct (skip_spaces_front ws) as (front & Hsplit & _).
    assert (Hall : all_space (skip_spaces ws) = true).
    { clear - Hws. induction ws as [|a ws IHw]; [reflexivity|].
      cbn [all_space skip_spaces] in *.
      apply andb_true_iff in Hws as [Ha Hr]. rewrite Ha. now apply IHw. }
    now apply rtrim_all_space.
  - cbn [append skip_spaces]. destruct (isspace c); [exact IH|].
    change (String c (s ++ ws)) with (String c s ++ ws).
    now apply rtrim_app.
Qed.

(** White space around a string does not change what is left of it. *)
Lemma Trim_surrounded (front s back : string) :
  all_space front = true -> all_space back = true ->
  Trim (front ++ s ++ back) = Trim s.
Proof.
  intros Hf Hb.
  now rewrite !Trim_rtrim, skip_spaces_app, rtrim_skip_spaces_app.
Qed.

(** X2. Trimming twice is trimming once, and white space put around a
    string does not change what trimming leaves of it. *)
Theorem Trim_idempotent :
  (forall s, Trim (Trim s) = Trim s) /\
  (forall front s back,
     all_space front = true -> all_space back = true ->
     Trim (front ++ s ++ back) = Trim s).
Proof.
  split; [exact Trim_fixed | exact Trim_surrounded].
Qed.

Lemma Trim_idempotent_witness :
  Trim ("  " ++ "a b" ++ " ") = Trim "a b".
Proof.
  destruct Trim_idempotent as [_ H]. apply H; reflexivity.
Defined.

(** X3. The names of colours and of alignments are resolved without
    regard to the case of their letters and to the white space around
    them. *)
Theorem names_case_and_space_insensitive :
  (forall s t, ToLower s = ToLower t ->
     ColorFromName s = ColorFromName t /\ AlignFromName s = AlignFromName t) /\
  (forall front s back,
     all_space front = true -> all_space back = true ->
     ColorFromName (front ++ s ++ back) = ColorFromName s /\
     AlignFromName (front ++ s ++ back) = AlignFromName s).
Proof.
  split.
  - intros s t H.
    assert (Hn : ToLower (Trim s) = ToLower (Trim t))
      by (now rewrite <- !Trim_ToLower, H).
    unfold ColorFromName, AlignFromName. now rewrite Hn.
  - intros front s back Hf Hb.
    unfold ColorFromName, AlignFromName.
    now rewrite (Trim_surrounded front s back Hf Hb).
Qed.

Lemma names_case_and_space_insensitive_witness :
  ColorFromName "  GrEy " = ColorFromName "grey" /\
  AlignFromName "CENTER" = AlignFromName "center".
Proof.
  destruct names_case_and_space_insensitive as [Hcase Hspace].
  split.
  - destruct (Hspace "  " "GrEy" " " eq_refl eq_refl) as [Hc _].
    destruct (Hcase "GrEy" "grey" eq_refl) as [Hc' _].
    exact (eq_trans Hc Hc').
  - exact (proj2 (Hcase "CENTER" "center" eq_refl)).
Defined.

Lemma ColorFromName_channel_ok (name : string) :
  let '(cr, cg, cb) := ColorFromName name in
  channel_ok cr /\ channel_ok cg /\ channel_ok cb.
Proof.
  unfold ColorFromName, channel_ok.
  repeat match goal with
         | |- context [if ?c then _ else _] => destruct c
         end; cbn; intuition auto.
Qed.

(** X4. Whatever the name, the colour it resolves to has its three
    channels among 0, 1/2 and 1, hence within the range of a PDF colour;
    a name that is none of the seven known ones gives black. *)
Theorem ColorFromName_channels (name : string) :
  (let '(cr, cg, cb) := ColorFromName name in
   channel_ok cr /\ channel_ok cg /\ channel_ok cb) /\
  (~ In (ToLower (Trim name))
        ["black"; "white"; "red"; "green"; "blue"; "gray"; "grey"] ->
   ColorFromName name = black).
Proof.
  split; [apply ColorFromName_channel_ok|].
  unfold ColorFromName. intros Hnot. cbn [In] in Hnot.
  repeat match goal with
         | |- context [String.eqb ?a ?b] =>
             let E := fresh "E" in
             destruct (String.eqb_spec a b) as [E | E];
             [exfalso; apply Hnot; rewrite E; tauto|]
         end.
  reflexivity.
Qed.

Lemma ColorFromName_channels_witness : ColorFromName "purple" = black.
Proof.
  apply (ColorFromName_channels "purple").
  cbn. intros H.
  repeat (destruct H as [H | H]; [discriminate H|]). exact H.
Defined.

(* ------------------------------------------------------------------ *)
(** ** The parts of a parameter list *)

Lemma contains_append (c : ascii) (s t : string) :
  contains c (s ++ t) = contains c s || contains c t.
Proof.
  induction s as [|a s IH]; cbn; [reflexivity|].
  now rewrite IH, orb_assoc.
Qed.

Lemma Trim_contains (c : ascii) (s : string) :
  contains c s = false -> contains c (Trim s) = false.
Proof.
  intros H. rewrite Trim_rtrim.
  destruct (skip_spaces_front s) as (front & Hs & _).
  destruct (rtrim_back (skip_spaces s)) as (back & Ht & _).
  rewrite Hs, Ht, !contains_append in H.
  apply orb_false_iff in H as [_ H]. now apply orb_false_iff in H as [H _].
Qed.

Lemma segments_no_comma (s : string) :
  Forall (fun seg => contains "," seg = false) (segments s).
Proof.
  induction s as [|c s IH]; cbn [segments]; [now repeat constructor|].
  destruct (Ascii.eqb c ",") eqn:Hc; [now constructor|].
  segments_cons s seg rest.
  inversion IH as [|? ? Hseg Hrest]; subst.
  constructor; [cbn; now rewrite Hc | exact Hrest].
Qed.

Lemma segments_length (s : string) :
  List.length (segments s) = S (count_char "," s).
Proof.
  induction s as [|c s IH]; [reflexivity|].
  cbn [segments count_char].
  destruct (Ascii.eqb c ","); [cbn; now rewrite IH|].
  segments_cons s seg rest. exact IH.
Qed.

Lemma Forall_removelast {A : Type} (P : A -> Prop) (l : list A) :
  Forall P l -> Forall P (removelast l).
Proof.
  induction l as [|a l IH]; intros H; [constructor|].
  inversion H; subst. cbn [removelast].
  destruct l; [constructor | constructor; auto].
Qed.

Lemma removelast_length {A : Type} (l : list A) :
  l <> [] -> S (List.length (removelast l)) = List.length l.
Proof.
  induction l as [|a l IH]; intros H; [contradiction|].
  destruct l as [|b l]; [reflexivity|].
  cbn [removelast List.length]. f_equal. apply IH. discriminate.
Qed.

(** X5. Every part [SplitByComma] gives is trimmed and holds no comma,
    and there is a part for each comma: their number is that of the commas,
    or one more. *)
Theorem SplitByComma_parts (s : string) :
  Forall (fun part => Trim part = part /\ contains "," part = false)
    (SplitByComma s) /\
  count_char "," s <= List.length (SplitByComma s) <= S (count_char "," s).
Proof.
  rewrite SplitByComma_kept. split.
  - apply Forall_map.
    assert (Hkept : Forall (fun seg => contains "," seg = false)
                      (kept_segments s)).
    { unfold kept_segments. destruct (empty (last (segments s) ""));
        [apply Forall_removelast|]; apply segments_no_comma. }
    eapply Forall_impl; [|exact Hkept].
    intros seg Hseg. split; [apply Trim_fixed | now apply Trim_contains].
  - rewrite length_map. unfold kept_segments.
    pose proof (segments_length s) as Hlen.
    pose proof (removelast_length (segments s) (segments_not_nil s)) as Hrem.
    destruct (empty (last (segments s) "")); lia.
Qed.

(* ------------------------------------------------------------------ *)
(** ** Reading numbers *)

Lemma show_digits_append (fuel : nat) :
  forall n acc t, show_digits fuel n acc ++ t = show_digits fuel n (acc ++ t).
Proof.
  induction fuel as [|fuel IH]; intros n acc t; cbn [show_digits];
    [reflexivity|].
  destruct (n <? 10)%Z; [reflexivity|]. now rewrite IH.
Qed.

Lemma show_digits_head (fuel : nat) :
  forall n acc,
    fuel <> 0 -> (0 <= n)%Z ->
    exists d rest,
      (0 <= d <= 9)%Z /\ show_digits fuel n acc = String (digit_char d) rest.
Proof.
  induction fuel as [|fuel IH]; intros n acc Hfuel Hn; [contradiction|].
  cbn [show_digits].
  assert (Hmod : (0 <= n mod 10 <= 9)%Z)
    by (pose proof (Z.mod_pos_bound n 10 ltac:(lia)); lia).
  destruct (n <? 10)%Z; [now exists (n mod 10)%Z, acc|].
  destruct fuel as [|fuel']; [now exists (n mod 10)%Z, acc|].
  apply IH; [discriminate | apply Z.div_pos; lia].
Qed.

Lemma strtol_digit_head (d : Z) (rest : string) :
  (0 <= d <= 9)%Z ->
  strtol (String (digit_char d) rest)
  = Z.max (- 2 ^ 63)
      (Z.min (2 ^ 63 - 1) (read_digits (String (digit_char d) rest) 0)).
Proof.
  intros H.
  assert (Hd : (d = 0 \/ d = 1 \/ d = 2 \/ d = 3 \/ d = 4 \/ d = 5 \/ d = 6
                \/ d = 7 \/ d = 8 \/ d = 9)%Z) by lia.
  repeat (destruct Hd as [-> | Hd]; [reflexivity|]).
  subst d. reflexivity.
Qed.

Lemma read_digits_stop (c : ascii) (rest : string) (a : Z) :
  isdigit c = false -> read_digits (String c rest) a = a.
Proof. intros H. cbn [read_digits]. now rewrite H. Qed.

(** What [strtol] reads from the digits of [z] followed by [junk], which
    is empty or starts with something else than a digit. *)
Lemma strtol_show_int (z : Z) (junk : string) :
  (- 2 ^ 63 <= z <= 2 ^ 63 - 1)%Z ->
  (forall c rest, junk = String c rest -> isdigit c = false) ->
  strtol (show_int z ++ junk) = z.
Proof.
  intros Hz Hjunk.
  assert (Hread : forall a, read_digits junk a = a).
  { intros a. destruct junk as [|c rest]; [reflexivity|].
    apply read_digits_stop. now apply (Hjunk c rest). }
  assert (Hfuel : forall n, (0 <= n)%Z ->
            (0 <= n < 2 ^ Z.of_nat (S (Z.to_nat (Z.log2 n))))%Z).
  { intros n Hn. split; [lia|].
    rewrite Nat2Z.inj_succ, Z2Nat.id by apply Z.log2_nonneg.
    destruct (Z.eq_dec n 0) as [-> | Hnz]; [reflexivity|].
    apply Z.log2_spec. lia. }
  unfold show_int. destruct (Z.ltb_spec z 0) as [Hneg | Hpos].
  - cbn [append]. unfold strtol.
    change (skip_spaces (String "-" ?s)) with (String "-" s).
    cbn [skip_spaces isspace]. cbv iota beta.
    change (isspace "-") with false. cbv iota.
    rewrite show_digits_append. cbn [append].
    destruct (show_digits_spec _ (- z)%Z junk (Nat.neq_succ_0 _)
                (Hfuel (- z)%Z ltac:(lia)))
      as (k & _ & _ & _ & _ & Hr).
    rewrite Hr, Hread. lia.
  - rewrite show_digits_append. cbn [append].
    destruct (show_digits_head (S (Z.to_nat (Z.log2 z))) z junk
                (Nat.neq_succ_0 _) Hpos) as (d & rest & Hd & Hhead).
    rewrite Hhead, strtol_digit_head by exact Hd. rewrite <- Hhead.
    destruct (show_digits_spec _ z junk (Nat.neq_succ_0 _) (Hfuel z Hpos))
      as (k & _ & _ & _ & _ & Hr).
    rewrite Hr, Hread. lia.
Qed.

Lemma int32_wrap_range (z : Z) :
  (Int32.min_int <= Int32.wrap z <= Int32.max_int)%Z.
Proof.
  unfold Int32.wrap, Int32.min_int, Int32.max_int, Int32.modulus. cbv zeta.
  change (2 ^ 32)%Z with 4294967296%Z. change (2 ^ 31)%Z with 2147483648%Z.
  pose proof (Z.mod_pos_bound z 4294967296 ltac:(lia)) as Hm.
  destruct (Z.leb_spec (z mod 4294967296) (2147483648 - 1)); lia.
Qed.

(** [atoi] reads back the decimal text of every [int], also when
    something that is not a digit follows the number; and whatever the
    text, the result is an [int]. *)
Lemma atoi_reads_show_int (z : Z) (junk : string) :
  (Int32.min_int <= z <= Int32.max_int)%Z ->
  (forall c rest, junk = String c rest -> isdigit c = false) ->
  atoi (show_int z ++ junk) = z.
Proof.
  intros Hz Hjunk. unfold atoi.
  unfold Int32.min_int, Int32.max_int in Hz.
  change (2 ^ 31)%Z with 2147483648%Z in Hz.
  rewrite strtol_show_int;
    [| change (2 ^ 63)%Z with 9223372036854775808%Z; lia | exact Hjunk].
  apply int32_wrap_small. change (2 ^ 31)%Z with 2147483648%Z. lia.
Qed.

Lemma digit_char_plain (d : Z) :
  (0 <= d <= 9)%Z -> plain_char (digit_char d) = true.
Proof.
  intros H.
  assert (Hd : (d = 0 \/ d = 1 \/ d = 2 \/ d = 3 \/ d = 4 \/ d = 5 \/ d = 6
                \/ d = 7 \/ d = 8 \/ d = 9)%Z) by lia.
  repeat (destruct Hd as [-> | Hd]; [reflexivity|]).
  subst d. reflexivity.
Qed.

Lemma show_digits_plain (fuel : nat) :
  forall n acc,
    (0 <= n)%Z -> plain acc = true -> plain (show_digits fuel n acc) = true.
Proof.
  induction fuel as [|fuel IH]; intros n acc Hn Hacc; cbn [show_digits];
    [exact Hacc|].
  assert (Hmod : (0 <= n mod 10 <= 9)%Z)
    by (pose proof (Z.mod_pos_bound n 10 ltac:(lia)); lia).
  assert (Hacc1 : plain (String (digit_char (n mod 10)) acc) = true)
    by (cbn [plain]; now rewrite digit_char_plain, Hacc).
  destruct (n <? 10)%Z; [exact Hacc1|].
  apply IH; [apply Z.div_pos; lia | exact Hacc1].
Qed.

Lemma show_int_plain (z : Z) : plain (show_int z) = true /\ show_int z <> "".
Proof.
  unfold show_int. destruct (Z.ltb_spec z 0) as [Hneg | Hpos].
  - split; [|discriminate]. cbn [plain].
    rewrite show_digits_plain by (try reflexivity; lia). reflexivity.
  - split; [apply show_digits_plain; [exact Hpos | reflexivity]|].
    destruct (show_digits_head (S (Z.to_nat (Z.log2 z))) z ""
                (Nat.neq_succ_0 _) Hpos) as (d & rest & _ & ->).
    discriminate.
Qed.

Lemma plain_segments (s : string) : plain s = true -> segments s = [s].
Proof.
  induction s as [|c s IH]; [reflexivity|].
  cbn [plain segments]. intros H. apply andb_true_iff in H as [Hc Hs].
  unfold plain_char in Hc. apply andb_true_iff in Hc as [_ Hcomma].
  apply negb_true_iff in Hcomma. now rewrite Hcomma, (IH Hs).
Qed.

Lemma plain_rtrim (s : string) : plain s = true -> rtrim s = s.
Proof.
  induction s as [|c s IH]; [reflexivity|].
  cbn [plain rtrim]. intros H. apply andb_true_iff in H as [Hc Hs].
  unfold plain_char in Hc. apply andb_true_iff in Hc as [Hspace _].
  apply negb_true_iff in Hspace.
  now rewrite (IH Hs), Hspace, andb_false_r.
Qed.

Lemma plain_Trim (s : string) : plain s = true -> Trim s = s.
Proof.
  intros H. rewrite Trim_rtrim.
  assert (Hskip : skip_spaces s = s).
  { destruct s as [|c s]; [reflexivity|]. cbn [plain] in H.
    apply andb_true_iff in H as [Hc _]. unfold plain_char in Hc.
    apply andb_true_iff in Hc as [Hspace _]. apply negb_true_iff in Hspace.
    cbn [skip_spaces]. now rewrite Hspace. }
  rewrite Hskip. now apply plain_rtrim.
Qed.

Lemma SplitByComma_plain (s : string) :
  plain s = true -> s <> "" -> SplitByComma s = [s].
Proof.
  intros Hplain Hne. rewrite SplitByComma_kept. unfold kept_segments.
  rewrite (plain_segments s Hplain). cbn [last].
  destruct s as [|c s]; [contradiction|]. cbn [empty map].
  now rewrite (plain_Trim _ Hplain).
Qed.

(** X6. A directive whose parameter is the decimal text of an [int]
    sets the font size to that number when it is positive, up to 2^31 - 1,
    and to 12 when it is zero or negative; what follows the digits without
    a comma, such as a unit, is not looked at. *)
Theorem font_size_directive (st : ParseState) (z : Z) :
  (Int32.min_int <= z <= Int32.max_int)%Z ->
  style_size (style_of (update_style st (show_int z)))
  = (if (z <=? 0)%Z then 12 else z)%Z /\
  style_size (style_of (update_style st (show_int z ++ "pt")))
  = (if (z <=? 0)%Z then 12 else z)%Z.
Proof.
  intros Hz. destruct (show_int_plain z) as [Hplain Hne].
  assert (Hplain2 : plain (show_int z ++ "pt") = true).
  { clear - Hplain. induction (show_int z) as [|c s IH]; [reflexivity|].
    cbn [plain append] in *. apply andb_true_iff in Hplain as [Hc Hs].
    now rewrite Hc, (IH Hs). }
  assert (Hne2 : show_int z ++ "pt" <> "")
    by (destruct (show_int z); discriminate).
  split.
  - rewrite update_style_parts by exact Hne. cbv zeta.
    rewrite (SplitByComma_plain _ Hplain Hne).
    cbn [nth_error style_size].
    assert (Hread : atoi (show_int z) = z).
    { rewrite <- (append_nil_r (show_int z)).
      apply atoi_reads_show_int; [exact Hz | discriminate]. }
    now rewrite Hread.
  - rewrite update_style_parts by exact Hne2. cbv zeta.
    rewrite (SplitByComma_plain _ Hplain2 Hne2).
    cbn [nth_error style_size].
    rewrite atoi_reads_show_int;
      [reflexivity | exact Hz | intros c rest [= <- _]; reflexivity].
Qed.

Lemma font_size_directive_witness :
  style_size (style_of (update_style (initial_state []) "36")) = 36%Z /\
  style_size (style_of (update_style (initial_state []) "-3")) = 12%Z.
Proof.
  assert (Hint : forall z, (- 3 <= z <= 36)%Z ->
                   (Int32.min_int <= z <= Int32.max_int)%Z).
  { intros z H. unfold Int32.min_int, Int32.max_int.
    change (2 ^ 31)%Z with 2147483648%Z. lia. }
  split.
  - exact (proj1 (font_size_directive (initial_state []) 36
                    (Hint 36%Z ltac:(lia)))).
  - exact (proj1 (font_size_directive (initial_state []) (-3)
                    (Hint (-3)%Z ltac:(lia)))).
Defined.

(* ------------------------------------------------------------------ *)
(** ** What the parser keeps *)

Lemma update_style_frame (st : ParseState) (params : string) :
  pages (update_style st params) = pages st /\
  inPage (update_style st params) = inPage st /\
  currentPage (update_style st params) = currentPage st.
Proof.
  unfold update_style. destruct (negb (empty params)).
  - cbv zeta.
    destruct (if Nat.leb 2 _ then _ else _) as [[r1 g1] b1]. now repeat split.
  - now repeat split.
Qed.

Lemma update_style_ok (st : ParseState) (params : string) :
  state_ok st -> state_ok (update_style st params).
Proof.
  intros (Hpages & Hcur & Hsize & Hr & Hg & Hb).
  destruct (update_style_frame st params) as (Ep & _ & Ec).
  unfold state_ok. rewrite Ep, Ec.
  split; [exact Hpages|]. split; [exact Hcur|].
  assert (Hstyle :
            (1 <= style_size (style_of (update_style st params))
             <= Int32.max_int)%Z /\
            (let '(cr, cg, cb) :=
               style_color (style_of (update_style st params)) in
             channel_ok cr /\ channel_ok cg /\ channel_ok cb)).
  { destruct params as [|c ps].
    - change (style_of (update_style st ""))
        with (mkStyle 12 black ALIGN_LEFT false).
      cbn [style_size style_color black]. unfold Int32.max_int, channel_ok.
      change (2 ^ 31)%Z with 2147483648%Z. intuition (auto; lia).
    - rewrite update_style_parts by discriminate. cbv zeta.
      cbn [style_size style_color]. split.
      + destruct (nth_error (SplitByComma (String c ps)) 0) as [p0|];
          [|exact Hsize].
        pose proof (int32_wrap_range (strtol p0)) as Hrange.
        fold (atoi p0) in Hrange.
        destruct (Z.leb_spec (atoi p0) 0); [|lia].
        unfold Int32.max_int. change (2 ^ 31)%Z with 2147483648%Z. lia.
      + destruct (nth_error (SplitByComma (String c ps)) 1) as [p1|].
        * apply ColorFromName_channel_ok.
        * unfold black, channel_ok. auto. }
  cbn [style_of style_size style_color] in Hstyle.
  destruct Hstyle as (Hs' & Hr' & Hg' & Hb'). now repeat split.
Qed.

Lemma open_page_ok (st : ParseState) : state_ok st -> state_ok (open_page st).
Proof.
  intros Hok. unfold open_page. destruct (negb (inPage st)); [|exact Hok].
  destruct Hok as (Hpages & _ & Hrest). split; [exact Hpages|].
  split; [constructor | exact Hrest].
Qed.

Lemma with_line_ok (st : ParseState) (txt : string) :
  state_ok st -> state_ok (with_line st txt).
Proof.
  intros (Hpages & Hcur & Hsize & Hr & Hg & Hb). unfold with_line, state_ok.
  cbn [pages currentPage lines currentFontSize currentR currentG currentB].
  split; [exact Hpages|]. split; [|now repeat split].
  apply Forall_app. split; [exact Hcur|].
  constructor; [|constructor]. unfold line_ok. cbn. now repeat split.
Qed.

Lemma parse_line_ok (st : ParseState) (raw : string) :
  state_ok st -> state_ok (parse_line st raw).
Proof.
  intros Hok. rewrite parse_line_cases. cbv zeta.
  destruct (empty (stripped raw)).
  { destruct (commentPos raw); [exact Hok|].
    destruct (inPage st); [now apply with_line_ok | exact Hok]. }
  destruct (starts_with "[" (stripped raw)).
  - destruct (second_is "/" (stripped raw)).
    + destruct (inPage st); [|exact Hok].
      destruct Hok as (Hpages & Hcur & Hrest). unfold close_page, state_ok.
      cbn [pages currentPage lines currentFontSize currentR currentG currentB].
      split; [apply Forall_app; split; [exact Hpages | now constructor]|].
      split; [constructor | exact Hrest].
    + destruct (find "]" (stripped raw)); [|exact Hok].
      now apply update_style_ok, open_page_ok.
  - destruct (inPage st); [now apply with_line_ok | exact Hok].
Qed.

Lemma fold_parse_line_ok (ls : list string) :
  forall st, state_ok st -> state_ok (fold_left parse_line ls st).
Proof.
  induction ls as [|raw ls IH]; intros st Hok; [exact Hok|].
  cbn [fold_left]. now apply IH, parse_line_ok.
Qed.

(** X7. Whatever the file holds, every line of every page the parser
    gives has a font size that is a positive [int] (from 1 to 2^31 - 1) and
    colour channels among 0, 1/2 and 1. *)
Theorem parsed_lines_ok (contents : string) :
  Forall (fun page => Forall line_ok (lines page)) (parse_text contents []).
Proof.
  unfold parse_text, parse_end.
  assert (Hinit : state_ok (initial_state [])).
  { unfold state_ok, initial_state, channel_ok, Int32.max_int. cbn.
    change (2 ^ 31)%Z with 2147483648%Z.
    repeat split; try constructor; auto; lia. }
  destruct (fold_parse_line_ok (getlines contents "") _ Hinit)
    as (Hpages & Hcur & _).
  destruct (inPage _ && negb _); [|exact Hpages].
  apply Forall_app. split; [exact Hpages | now constructor].
Qed.

Lemma subseq_nil {A : Type} (l : list A) : subseq [] l.
Proof. induction l as [|y l IH]; cbn; [reflexivity | now left]. Qed.

Lemma parse_line_appends (st : ParseState) (raw : string) :
  idle_empty st ->
  idle_empty (parse_line st raw) /\
  exists more,
    all_lines (parse_line st raw) = (all_lines st ++ more)%list /\
    (more = [] \/ exists l, more = [l] /\ text l = stripped raw).
Proof.
  intros Hidle. rewrite parse_line_cases. cbv zeta.
  assert (Hsame : idle_empty st /\
                  exists more,
                    all_lines st = (all_lines st ++ more)%list /\
                    (more = [] \/ exists l, more = [l] /\ text l = stripped raw)).
  { split; [exact Hidle|]. exists []. now rewrite app_nil_r; split; [|left]. }
  assert (Hline : inPage st = true ->
                  idle_empty (with_line st (stripped raw)) /\
                  exists more,
                    all_lines (with_line st (stripped raw))
                    = (all_lines st ++ more)%list /\
                    (more = [] \/
                     exists l, more = [l] /\ text l = stripped raw)).
  { intros Hin. split.
    - unfold idle_empty, with_line. cbn [inPage]. congruence.
    - eexists. unfold all_lines, with_line. cbn [pages currentPage lines].
      rewrite app_assoc. split; [reflexivity|].
      right. eexists. split; reflexivity. }
  destruct (empty (stripped raw)) eqn:Hempty.
  { destruct (commentPos raw); [exact Hsame|].
    destruct (inPage st) eqn:Hin; [|exact Hsame].
    apply empty_true in Hempty. rewrite Hempty in Hline |- *.
    now apply Hline. }
  destruct (starts_with "[" (stripped raw)).
  - destruct (second_is "/" (stripped raw)).
    + destruct (inPage st) eqn:Hin; [|exact Hsame]. split.
      * unfold idle_empty, close_page. now cbn.
      * exists []. unfold all_lines, close_page. cbn [pages currentPage lines].
        rewrite flat_map_app. cbn [flat_map]. rewrite !app_nil_r.
        split; [reflexivity | now left].
    + destruct (find "]" (stripped raw)); [|exact Hsame].
      destruct (update_style_frame (open_page st)
                  (Trim (substr_from (n + 1) (stripped raw))))
        as (Ep & Ei & Ec).
      split.
      * unfold idle_empty. rewrite Ei, Ec. unfold open_page.
        destruct (inPage st) eqn:Hin; cbn [negb inPage]; [|discriminate].
        rewrite Hin. discriminate.
      * exists []. unfold all_lines. rewrite Ep, Ec, app_nil_r.
        split; [|now left].
        unfold open_page. destruct (inPage st) eqn:Hin; cbn [negb];
          [reflexivity|].
        cbn [pages currentPage lines]. now rewrite (Hidle Hin).
  - destruct (inPage st) eqn:Hin; [now apply Hline | exact Hsame].
Qed.

Lemma fold_parse_line_appends (ls : list string) :
  forall st,
    idle_empty st ->
    idle_empty (fold_left parse_line ls st) /\
    exists more,
      all_lines (fold_left parse_line ls st) = (all_lines st ++ more)%list /\
      subseq (map text more) (map stripped ls).
Proof.
  induction ls as [|raw ls IH]; intros st Hidle; cbn [fold_left map].
  - split; [exact Hidle|]. exists []. now rewrite app_nil_r.
  - destruct (parse_line_appends st raw Hidle) as (Hidle1 & m1 & Hm1 & Hcase).
    destruct (IH _ Hidle1) as (Hidle2 & m2 & Hm2 & Hsub).
    split; [exact Hidle2|].
    exists (m1 ++ m2)%list. rewrite Hm2, Hm1, <- app_assoc.
    split; [reflexivity|].
    destruct Hcase as [-> | (l & -> & Htext)]; cbn [app map subseq].
    + now left.
    + right. now split.
Qed.

Lemma subseq_length {A : Type} (l2 : list A) :
  forall l1, subseq l1 l2 -> List.length l1 <= List.length l2.
Proof.
  induction l2 as [|y l2 IH]; intros l1 H; cbn [subseq] in H.
  - subst l1. cbn. lia.
  - destruct H as [H | H].
    + specialize (IH _ H). cbn. lia.
    + destruct l1 as [|x l1]; [contradiction|].
      destruct H as [_ H]. specialize (IH _ H). cbn. lia.
Qed.

Lemma parsed_texts_subseq (contents : string) :
  subseq (map text (flat_map lines (parse_text contents [])))
    (map stripped (getlines contents "")).
Proof.
  assert (Hinit : idle_empty (initial_state [])) by (intros _; reflexivity).
  destruct (fold_parse_line_appends (getlines contents "") _ Hinit)
    as (Hidle & more & Hall & Hsub).
  unfold parse_text, parse_end.
  set (st := fold_left parse_line (getlines contents "") (initial_state []))
    in *.
  assert (Hflat : flat_map lines
                    (if inPage st && negb match lines (currentPage st) with
                                          | [] => true
                                          | _ :: _ => false
                                          end
                     then (pages st ++ [currentPage st])%list else pages st)
                  = all_lines st).
  { unfold all_lines. destruct (inPage st) eqn:Hin; cbn [andb].
    - destruct (lines (currentPage st)) eqn:Hl; cbn [negb].
      + now rewrite app_nil_r.
      + rewrite flat_map_app. cbn [flat_map]. now rewrite Hl, app_nil_r.
    - now rewrite (Hidle Hin), app_nil_r. }
  rewrite Hflat, Hall. exact Hsub.
Qed.

(** X8. The parser makes no text up and keeps the order of the file: the
    texts of the lines of the pages, page after page, are the stripped
    texts of some of the lines of the file, in the order of the file; so
    there are no more of them than lines in the file. *)
Theorem parsed_texts_from_file (contents : string) :
  subseq (map text (flat_map lines (parse_text contents [])))
    (map stripped (getlines contents "")) /\
  List.length (flat_map lines (parse_text contents []))
  <= List.length (getlines contents "").
Proof.
  pose proof (parsed_texts_subseq contents) as Hsubseq.
  split; [exact Hsubseq|].
  apply subseq_length in Hsubseq. now rewrite !length_map in Hsubseq.
Qed.

Lemma find_char_present (c : ascii) (s : string) :
  contains c s = true -> exists p, find (String c "") s = Some p.
Proof.
  unfold find. induction s as [|a s IH]; cbn [contains]; [discriminate|].
  intros H. cbn [String.index].
  destruct (String.prefix (String c "") (String a s)) eqn:Hp;
    [eexists; reflexivity|].
  destruct (Ascii.eqb a c) eqn:Ha.
  - apply Ascii.eqb_eq in Ha. subst a. exfalso.
    assert (Htrue : String.prefix (String c "") (String c s) = true).
    { apply String.prefix_correct. cbn. now rewrite substring_zero_length. }
    congruence.
  - cbn [orb] in H. destruct (IH H) as (p & Hfound). rewrite Hfound.
    eexists; reflexivity.
Qed.

(** X9. How directives move the parser between pages.  An opening or
    style directive never finishes a page: inside a page the lines
    accumulated so far stay where they are, and only the style changes;
    outside a page it starts an empty one.  A closing directive, which
    needs no closing bracket, finishes the page being accumulated, be it
    empty, and leaves the style alone; outside a page it does nothing. *)
Theorem directives_and_pages (st : ParseState) (raw : string) :
  starts_with "[" (stripped raw) = true ->
  (second_is "/" (stripped raw) = false ->
   contains "]" (stripped raw) = true ->
   pages (parse_line st raw) = pages st /\
   inPage (parse_line st raw) = true /\
   (inPage st = true -> currentPage (parse_line st raw) = currentPage st) /\
   (inPage st = false -> lines (currentPage (parse_line st raw)) = [])) /\
  (second_is "/" (stripped raw) = true ->
   (inPage st = true ->
    pages (parse_line st raw) = (pages st ++ [currentPage st])%list /\
    inPage (parse_line st raw) = false /\
    lines (currentPage (parse_line st raw)) = [] /\
    style_of (parse_line st raw) = style_of st) /\
   (inPage st = false -> parse_line st raw = st)).
Proof.
  intros Hopen. rewrite parse_line_cases. cbv zeta. rewrite Hopen.
  destruct (stripped raw) as [|c rest] eqn:Hline; [discriminate Hopen|].
  cbn [empty]. split.
  - intros Hslash Hclose. rewrite Hslash.
    destruct (find "]" (String c rest)) as [closePos|] eqn:Hfind.
    + destruct (update_style_frame (open_page st)
                  (Trim (substr_from (closePos + 1) (String c rest))))
        as (Ep & Ei & Ec).
      rewrite Ep, Ei, Ec. unfold open_page.
      destruct (inPage st) eqn:Hin; cbn [negb pages inPage currentPage lines];
        rewrite ?Hin; repeat split; intros; congruence.
    + destruct (find_char_present _ _ Hclose) as (p & Hp). congruence.
  - intros Hslash. rewrite Hslash. split.
    + intros Hin. rewrite Hin. unfold close_page. now cbn.
    + intros Hin. now rewrite Hin.
Qed.

Lemma directives_and_pages_witness :
  currentPage
    (parse_line
       (fold_left parse_line ["[p1] 14, red"; "first"] (initial_state []))
       "[p2] 10")
  = currentPage
      (fold_left parse_line ["[p1] 14, red"; "first"] (initial_state [])) /\
  pages
    (parse_line
       (fold_left parse_line ["[p1] 14, red"; "first"] (initial_state []))
       "[/")
  = [currentPage
       (fold_left parse_line ["[p1] 14, red"; "first"] (initial_state []))].
Proof.
  destruct (directives_and_pages
              (fold_left parse_line ["[p1] 14, red"; "first"] (initial_state []))
              "[p2] 10" eq_refl) as [Hopen _].
  destruct (Hopen eq_refl eq_refl) as (_ & _ & Hkeep & _).
  destruct (directives_and_pages
              (fold_left parse_line ["[p1] 14, red"; "first"] (initial_state []))
              "[/" eq_refl) as [_ Hclose].
  destruct (Hclose eq_refl) as [Hpush _].
  destruct (Hpush eq_refl) as (Hpages & _).
  split; [exact (Hkeep eq_refl) | exact Hpages].
Defined.

(* ------------------------------------------------------------------ *)
(** ** Files without pages, and the lines of a file *)

Lemma substring_contains (c : ascii) (s : string) :
  forall n m,
    contains c s = false -> contains c (String.substring n m s) = false.
Proof.
  induction s as [|a s IH]; intros n m H.
  - destruct n; destruct m; reflexivity.
  - cbn [contains] in H. apply orb_false_iff in H as [Ha Hs].
    destruct n as [|n]; [destruct m as [|m]|]; cbn [String.substring contains].
    + reflexivity.
    + rewrite Ha. now apply IH.
    + now apply IH.
Qed.

Lemma stripped_contains (c : ascii) (raw : string) :
  contains c raw = false -> contains c (stripped raw) = false.
Proof.
  intros H. unfold stripped. apply Trim_contains. unfold beforeComment.
  destruct (commentPos raw); [now apply substring_contains | exact H].
Qed.

Lemma starts_with_contains (c : ascii) (s : string) :
  starts_with c s = true -> contains c s = true.
Proof.
  destruct s as [|a s]; cbn; [discriminate|]. intros ->. reflexivity.
Qed.

Lemma getlines_contains (c : ascii) (s : string) :
  forall cur,
    contains c s = false -> contains c cur = false ->
    Forall (fun l => contains c l = false) (getlines s cur).
Proof.
  induction s as [|a s IH]; intros cur Hs Hcur; cbn [getlines].
  - destruct (empty cur); repeat constructor. exact Hcur.
  - cbn [contains] in Hs. apply orb_false_iff in Hs as [Ha Hs].
    destruct (Ascii.eqb a LF).
    + constructor; [exact Hcur | now apply IH].
    + apply IH; [exact Hs|]. rewrite contains_append. cbn.
      now rewrite Hcur, Ha.
Qed.

(** Outside a page, a line without an opening bracket changes nothing. *)
Lemma parse_line_outside (st : ParseState) (raw : string) :
  inPage st = false -> contains "[" raw = false -> parse_line st raw = st.
Proof.
  intros Hin Hraw. rewrite parse_line_cases. cbv zeta. rewrite Hin.
  assert (Hstart : starts_with "[" (stripped raw) = false).
  { destruct (starts_with "[" (stripped raw)) eqn:E; [|reflexivity].
    apply starts_with_contains in E.
    now rewrite (stripped_contains _ _ Hraw) in E. }
  rewrite Hstart.
  destruct (empty (stripped raw)); [destruct (commentPos raw)|]; reflexivity.
Qed.

Lemma parse_text_no_bracket (contents : string) :
  contains "[" contents = false -> parse_text contents [] = [].
Proof.
  intros H. unfold parse_text.
  assert (Hfold : forall ls st,
             Forall (fun l => contains "[" l = false) ls ->
             inPage st = false -> fold_left parse_line ls st = st).
  { induction ls as [|raw ls IH]; intros st Hall Hin; [reflexivity|].
    inversion Hall; subst. cbn [fold_left].
    rewrite parse_line_outside by assumption. now apply IH. }
  rewrite Hfold; [reflexivity | now apply getlines_contains | reflexivity].
Qed.

(** X10. A layout file without any opening bracket, the empty file
    among them, gives no page: the program then reports that no page was
    parsed, writes no file and exits with code 1. *)
Theorem no_bracket_no_page (w : World) (contents : string) :
  2 <= List.length (argv w) ->
  open_in w (nth 1 (argv w) "" ++ ".txt") = Some contents ->
  contains "[" contents = false ->
  parse_text contents [] = [] /\
  main w = mkOutcome 1 ("No pages parsed from layout file." ++ nl) "" None.
Proof.
  intros Hargc Hin Hnone.
  split; [now apply parse_text_no_bracket|].
  rewrite (main_cases w Hargc). cbv zeta.
  now rewrite Hin, (parse_text_no_bracket contents Hnone).
Qed.

Lemma no_bracket_no_page_witness :
  exit_code
    (main (mkWorld ["layout2pdf"; "notes"]
             (fun _ => Some ("just text" ++ nl ++ "// and a comment"))
             (fun _ => true)
             (fun _ data => data)))
  = 1%Z.
Proof.
  destruct (no_bracket_no_page
              (mkWorld ["layout2pdf"; "notes"]
                 (fun _ => Some ("just text" ++ nl ++ "// and a comment"))
                 (fun _ => true)
                 (fun _ data => data))
              ("just text" ++ nl ++ "// and a comment")
              (le_n 2) eq_refl eq_refl) as [_ Hmain].
  now rewrite Hmain.
Defined.

Lemma unlines_getlines (s : string) :
  forall cur,
    unlines (getlines s cur)
    = cur ++ s ++ (if open_line s (negb (empty cur)) then nl else "").
Proof.
  unfold unlines.
  induction s as [|c s IH]; intros cur; cbn [getlines open_line].
  - destruct cur as [|a cur]; cbn [empty negb map concat_all append].
    + reflexivity.
    + now rewrite !append_nil_r.
  - destruct (Ascii.eqb c LF) eqn:Hc.
    + apply Ascii.eqb_eq in Hc. subst c.
      cbn [map concat_all negb]. rewrite IH. cbn [empty negb append].
      unfold nl. now rewrite !append_assoc.
    + rewrite IH. cbn [negb].
      assert (He : empty (cur ++ String c "") = false)
        by (destruct cur; reflexivity).
      rewrite He. cbn [negb]. now rewrite !append_assoc.
Qed.

(** X11. The lines [std::getline] delivers hold no line feed, and put
    together again, each with its line feed, they are the text of the file,
    with one line feed more when the file ends inside a line. *)
Theorem getlines_unlines (contents : string) :
  Forall (fun l => contains LF l = false) (getlines contents "") /\
  unlines (getlines contents "")
  = contents ++ (if open_line contents false then nl else "").
Proof.
  split.
  - assert (Hgen : forall s cur,
               contains LF cur = false ->
               Forall (fun l => contains LF l = false) (getlines s cur)).
    { induction s as [|c s IH]; intros cur Hcur; cbn [getlines].
      - destruct (empty cur); repeat constructor. exact Hcur.
      - destruct (Ascii.eqb c LF) eqn:Hc.
        + constructor; [exact Hcur | now apply IH].
        + apply IH. rewrite contains_append. cbn [contains].
          now rewrite Hcur, Hc. }
    now apply Hgen.
  - apply (unlines_getlines contents "").
Qed.

(* ------------------------------------------------------------------ *)
(** ** Literal strings *)

Lemma EscapePdfString_loop_out (s : string) :
  forall out, EscapePdfString_loop s out = out ++ EscapePdfString_loop s "".
Proof.
  induction s as [|c s IH]; intros out; cbn [EscapePdfString_loop].
  - now rewrite append_nil_r.
  - destruct (Ascii.eqb c "(" || Ascii.eqb c ")" || Ascii.eqb c "\").
    + rewrite (IH ((out ++ "\") ++ String c "")).
      rewrite (IH (("" ++ "\") ++ String c "")).
      cbn [append]. now rewrite !append_assoc.
    + rewrite (IH (out ++ String c "")).
      rewrite (IH ("" ++ String c "")).
      cbn [append]. now rewrite !append_assoc.
Qed.

Lemma EscapePdfString_cons (c : ascii) (s : string) :
  EscapePdfString (String c s)
  = (if Ascii.eqb c "(" || Ascii.eqb c ")" || Ascii.eqb c "\"
     then String "\" (String c "") else String c "")
    ++ EscapePdfString s.
Proof.
  unfold EscapePdfString. cbn [EscapePdfString_loop].
  rewrite EscapePdfString_loop_out.
  destruct (Ascii.eqb c "(" || Ascii.eqb c ")" || Ascii.eqb c "\");
    reflexivity.
Qed.

Lemma read_literal_escaped (e : ascii) (s : string) :
  read_literal (String "\" (String e s))
  = match read_literal s with
    | Some (txt, rest) => Some (String e txt, rest)
    | None => None
    end.
Proof. reflexivity. Qed.

Lemma read_literal_plain (c : ascii) (s : string) :
  Ascii.eqb c ")" = false -> Ascii.eqb c "\" = false ->
  read_literal (String c s)
  = match read_literal s with
    | Some (txt, rest) => Some (String c txt, rest)
    | None => None
    end.
Proof.
  intros Hclose Hback.
  change (read_literal (String c s))
    with (if Ascii.eqb c ")" then Some ("", s)
          else if Ascii.eqb c "\"
          then match s with
               | EmptyString => None
               | String e s'' =>
                   match read_literal s'' with
                   | Some (txt, rest) => Some (String e txt, rest)
                   | None => None
                   end
               end
          else match read_literal s with
               | Some (txt, rest) => Some (String c txt, rest)
               | None => None
               end).
  now rewrite Hclose, Hback.
Qed.

Lemma read_literal_escape (txt rest : string) :
  read_literal (EscapePdfString txt ++ ")" ++ rest) = Some (txt, rest).
Proof.
  induction txt as [|c txt IH]; [reflexivity|].
  rewrite EscapePdfString_cons.
  destruct (Ascii.eqb c "(" || Ascii.eqb c ")" || Ascii.eqb c "\") eqn:Hspecial.
  - change ((String "\" (String c "") ++ EscapePdfString txt) ++ ")" ++ rest)
      with (String "\" (String c (EscapePdfString txt ++ ")" ++ rest))).
    now rewrite read_literal_escaped, IH.
  - apply orb_false_iff in Hspecial as [Hspecial Hback].
    apply orb_false_iff in Hspecial as [_ Hclose].
    change ((String c "" ++ EscapePdfString txt) ++ ")" ++ rest)
      with (String c (EscapePdfString txt ++ ")" ++ rest)).
    now rewrite read_literal_plain, IH.
Qed.

(** X12. A text escaped by [EscapePdfString] and put between
    parentheses is a literal string that ends at the closing parenthesis
    written after it and reads back as the text itself, whatever
    parentheses and backslashes the text holds; the escaped text is at
    least as long as the text, and at most twice as long. *)
Theorem EscapePdfString_read_back (txt rest : string) :
  read_literal (EscapePdfString txt ++ ")" ++ rest) = Some (txt, rest) /\
  String.length txt <= String.length (EscapePdfString txt)
  <= 2 * String.length txt.
Proof.
  split; [apply read_literal_escape|].
  induction txt as [|c txt IH]; [cbn; lia|].
  rewrite EscapePdfString_cons, length_append. cbn [String.length].
  destruct (Ascii.eqb c "(" || Ascii.eqb c ")" || Ascii.eqb c "\");
    cbn [String.length]; lia.
Qed.

(* ------------------------------------------------------------------ *)
(** ** The layout and the content stream of a page *)

Lemma place_map_ls step (l : list LineSpec) :
  forall y0, map PositionedLine.ls (place step l y0) = l.
Proof.
  induction l as [|ls rest IH]; intros y0; cbn [place map]; [reflexivity|].
  now rewrite IH.
Qed.

Lemma filter_split_permutation {A : Type} (f : A -> bool) (l : list A) :
  Permutation (filter (fun x => negb (f x)) l ++ filter f l) l.
Proof.
  induction l as [|a l IH]; [constructor|].
  cbn [filter]. destruct (f a); cbn [negb].
  - apply Permutation_sym, Permutation_cons_app, Permutation_sym, IH.
  - cbn [app]. now constructor.
Qed.

(** X13. Every line of a page is positioned once: the entries of
    [positioned] are the top-anchored lines in the order of their
    declaration, then the bottom-anchored ones in the reverse order, which
    together are the lines of the page in another order. *)
Theorem layout_lines (page : PageSpec) :
  map PositionedLine.ls (layout page)
  = (top_lines page ++ rev (bottom_lines page))%list /\
  Permutation (map PositionedLine.ls (layout page)) (lines page) /\
  List.length (layout page) = List.length (lines page).
Proof.
  assert (Hmap : map PositionedLine.ls (layout page)
                 = (top_lines page ++ rev (bottom_lines page))%list).
  { rewrite layout_place, map_app, !place_map_ls. reflexivity. }
  assert (Hperm : Permutation (map PositionedLine.ls (layout page))
                    (lines page)).
  { rewrite Hmap. unfold top_lines, bottom_lines.
    eapply Permutation_trans; [|apply (filter_split_permutation bottomAnchor)].
    apply Permutation_app_head, Permutation_sym, Permutation_rev. }
  split; [exact Hmap|]. split; [exact Hperm|].
  apply Permutation_length in Hperm. now rewrite length_map in Hperm.
Qed.

Lemma sub_whole (a c : Z) :
  (Z.abs (a - c) <= 2 ^ 24)%Z ->
  F32.sub (F32.whole a) (F32.whole c) = F32.whole (a - c).
Proof.
  intros H. unfold F32.sub, F32.whole. cbn [F32.quarters].
  replace (4 * a - 4 * c)%Z with (4 * (a - c))%Z by lia.
  now rewrite round24_whole.
Qed.

Lemma stack_height_nonneg (l : list LineSpec) :
  (forall ls, In ls l -> 0 <= fontSize ls)%Z -> (0 <= stack_height l)%Z.
Proof.
  induction l as [|x l IH]; intros Hpos; cbn [stack_height]; [lia|].
  assert (0 <= fontSize x)%Z by (apply Hpos; now left).
  assert (0 <= stack_height l)%Z by (apply IH; intros y Hy; apply Hpos; now right).
  lia.
Qed.

Lemma place_sub_exact (l : list LineSpec) :
  forall Y0 k,
    k < List.length l ->
    (forall ls, In ls l -> 0 <= fontSize ls)%Z ->
    (- 2 ^ 24 <= Y0 <= 2 ^ 24)%Z ->
    (stack_height l <= 2 ^ 24)%Z ->
    (- 2 ^ 24 <= Y0 - stack_height l)%Z ->
    PositionedLine.y (nth k (place F32.sub l (F32.whole Y0)) dummy_entry)
    = F32.whole (Y0 - stack_height (firstn k l)).
Proof.
  induction l as [|ls rest IH]; intros Y0 k Hk Hpos HY Hstack Hfit;
    cbn in Hk; [lia|].
  assert (Hrest : (0 <= stack_height rest)%Z)
    by (apply stack_height_nonneg; intros x Hx; apply Hpos; now right).
  assert (Hls : (0 <= fontSize ls)%Z) by (apply Hpos; now left).
  cbn [stack_height] in Hfit, Hstack.
  change (2 ^ 24)%Z with 16777216%Z in *.
  destruct k as [|k].
  - cbn. now rewrite Z.sub_0_r.
  - cbn [place nth firstn stack_height].
    rewrite advance_whole by (change (2 ^ 24)%Z with 16777216%Z; lia).
    rewrite sub_whole by (change (2 ^ 24)%Z with 16777216%Z; lia).
    rewrite IH.
    + f_equal. lia.
    + lia.
    + intros x Hx. apply Hpos. now right.
    + lia.
    + lia.
    + lia.
Qed.

(** X14. The top-anchored lines of a page come first in [positioned], in
    the order of their declaration: the first one at y = 750, each next
    one lower by the [fontSize + 4] of the line before it (a subtraction of
    floats, the plain difference as long as the stack stays below 2^24),
    spacers included.  Nothing stops at the bottom of the page: a long page
    goes on at negative heights. *)
Theorem top_lines_descend (page : PageSpec) :
  let tl := top_lines page in
  let entry k := nth k (layout page) dummy_entry in
  (forall k, k < List.length tl ->
     PositionedLine.ls (entry k) = nth k tl dummy_line) /\
  (0 < List.length tl -> PositionedLine.y (entry 0) = F32.whole 750) /\
  (forall k, S k < List.length tl ->
     PositionedLine.y (entry (S k))
     = F32.sub (PositionedLine.y (entry k))
         (F32.of_int (Int32.add (fontSize (nth k tl dummy_line)) 4))) /\
  (forall k, k < List.length tl ->
     (forall ls, In ls tl -> 0 <= fontSize ls)%Z ->
     (stack_height tl <= 2 ^ 24)%Z ->
     PositionedLine.y (entry k)
     = F32.whole (750 - stack_height (firstn k tl))).
Proof.
  intros tl entry.
  assert (Hentry : forall k, k < List.length tl ->
            entry k = nth k (place F32.sub tl topMarginY) dummy_entry).
  { intros k Hk. unfold entry. rewrite layout_place.
    apply app_nth1. now rewrite place_length. }
  split; [|split; [|split]].
  - intros k Hk. rewrite Hentry by exact Hk. now apply place_ls.
  - intros Hk. rewrite Hentry by exact Hk. now apply place_first_y.
  - intros k Hk. rewrite !Hentry by lia. now apply place_next_y.
  - intros k Hk Hpos Hfit. rewrite Hentry by exact Hk. unfold topMarginY.
    pose proof (stack_height_nonneg tl Hpos) as Hnonneg.
    change (2 ^ 24)%Z with 16777216%Z in Hfit.
    apply place_sub_exact; try assumption;
      change (2 ^ 24)%Z with 16777216%Z; lia.
Qed.

Lemma top_lines_descend_witness :
  map PositionedLine.y
    (layout (mkPageSpec
               [mkLineSpec "Title" 20 (F32.whole 0) (F32.whole 0) (F32.whole 0)
                  ALIGN_LEFT false;
                mkLineSpec "" 12 (F32.whole 0) (F32.whole 0) (F32.whole 0)
                  ALIGN_LEFT false;
                mkLineSpec "Body" 12 (F32.whole 0) (F32.whole 0) (F32.whole 0)
                  ALIGN_LEFT false]))
  = [F32.whole 750; F32.whole 726; F32.whole 710].
Proof.
  pose proof (top_lines_descend
                (mkPageSpec
                   [mkLineSpec "Title" 20 (F32.whole 0) (F32.whole 0)
                      (F32.whole 0) ALIGN_LEFT false;
                    mkLineSpec "" 12 (F32.whole 0) (F32.whole 0) (F32.whole 0)
                      ALIGN_LEFT false;
                    mkLineSpec "Body" 12 (F32.whole 0) (F32.whole 0)
                      (F32.whole 0) ALIGN_LEFT false]))
    as (_ & _ & _ & Hexact).
  cbv zeta in Hexact.
  assert (Hpos : forall ls,
             In ls (top_lines
                      (mkPageSpec
                         [mkLineSpec "Title" 20 (F32.whole 0) (F32.whole 0)
                            (F32.whole 0) ALIGN_LEFT false;
                          mkLineSpec "" 12 (F32.whole 0) (F32.whole 0)
                            (F32.whole 0) ALIGN_LEFT false;
                          mkLineSpec "Body" 12 (F32.whole 0) (F32.whole 0)
                            (F32.whole 0) ALIGN_LEFT false])) ->
             (0 <= fontSize ls)%Z).
  { intros ls [<- | [<- | [<- | []]]]; cbn; lia. }
  assert (Hfit : (stack_height
                    (top_lines
                       (mkPageSpec
                          [mkLineSpec "Title" 20 (F32.whole 0) (F32.whole 0)
                             (F32.whole 0) ALIGN_LEFT false;
                           mkLineSpec "" 12 (F32.whole 0) (F32.whole 0)
                             (F32.whole 0) ALIGN_LEFT false;
                           mkLineSpec "Body" 12 (F32.whole 0) (F32.whole 0)
                             (F32.whole 0) ALIGN_LEFT false]))
                  <= 2 ^ 24)%Z) by (cbn; lia).
  pose proof (Hexact 0 ltac:(cbn; lia) Hpos Hfit) as H0.
  pose proof (Hexact 1 ltac:(cbn; lia) Hpos Hfit) as H1.
  pose proof (Hexact 2 ltac:(cbn; lia) Hpos Hfit) as H2.
  cbn [nth] in H0, H1, H2.
  exact (f_equal2 cons H0 (f_equal2 cons H1 (f_equal2 cons H2 eq_refl))).
Defined.

Lemma place_forall step (P : PositionedLine.t -> Prop) (l : list LineSpec) :
  (forall ls y0, In ls l -> P (position ls y0)) ->
  forall y0, Forall P (place step l y0).
Proof.
  induction l as [|ls rest IH]; intros HP y0; cbn [place]; constructor.
  - apply HP. now left.
  - apply IH. intros x y Hx. apply HP. now right.
Qed.

(** X15. No line starts left of the left margin: the x of every
    positioned line is at least 72, whatever its alignment and however
    wide its text, and it is 72 for a left-aligned line. *)
Theorem x_within_margin (page : PageSpec) :
  Forall (fun e =>
            F32.ltb (PositionedLine.x e) leftMargin = false /\
            (align (PositionedLine.ls e) = ALIGN_LEFT ->
             PositionedLine.x e = leftMargin))
    (layout page).
Proof.
  rewrite layout_place. apply Forall_app.
  assert (Hpos : forall ls y0,
             F32.ltb (PositionedLine.x (position ls y0)) leftMargin = false /\
             (align (PositionedLine.ls (position ls y0)) = ALIGN_LEFT ->
              PositionedLine.x (position ls y0) = leftMargin)).
  { intros ls y0. unfold position. cbn [PositionedLine.x PositionedLine.ls].
    unfold computeX. destruct (align ls).
    - split; reflexivity.
    - split; [|discriminate].
      match goal with |- context [if ?c then _ else _] => destruct c eqn:E end;
        [reflexivity | exact E].
    - split; [|discriminate].
      match goal with |- context [if ?c then _ else _] => destruct c eqn:E end;
        [reflexivity | exact E]. }
  split; apply place_forall; intros ls y0 _; apply Hpos.
Qed.

Lemma emit_operators (positioned : list PositionedLine.t) :
  forall out,
    emit positioned out = out ++ concat_all (map line_operators positioned).
Proof.
  induction positioned as [|pl rest IH]; intros out;
    cbn [emit map concat_all].
  - now rewrite append_nil_r.
  - rewrite IH. unfold line_operators. cbv zeta.
    now rewrite !append_assoc.
Qed.

(** X16. The content stream of a page is one text block: [BT], then for
    each positioned line, in the order of [positioned], its four operators
    (font and size, colour, place, text), then [ET]; the text of a line is
    a literal that reads back as the line's text. *)
Theorem BuildPageContent_block (page : PageSpec) :
  BuildPageContent page
  = "BT" ++ nl ++ concat_all (map line_operators (layout page)) ++ "ET" ++ nl /\
  Forall (fun e =>
            exists front,
              line_operators e
              = front ++ "(" ++ EscapePdfString (text (PositionedLine.ls e))
                ++ ") Tj" ++ nl /\
              read_literal (EscapePdfString (text (PositionedLine.ls e))
                            ++ ") Tj" ++ nl)
              = Some (text (PositionedLine.ls e), " Tj" ++ nl))
    (layout page).
Proof.
  split.
  - unfold BuildPageContent. rewrite emit_operators.
    now rewrite !append_assoc.
  - apply Forall_forall. intros e _.
    exists ("/F1 " ++ show_int (fontSize (PositionedLine.ls e)) ++ " Tf" ++ nl
            ++ F32.show (r (PositionedLine.ls e)) ++ " "
            ++ F32.show (g (PositionedLine.ls e)) ++ " "
            ++ F32.show (b (PositionedLine.ls e)) ++ " rg" ++ nl
            ++ "1 0 0 1 " ++ F32.show (PositionedLine.x e) ++ " "
            ++ F32.show (PositionedLine.y e) ++ " Tm" ++ nl).
    split.
    + unfold line_operators. cbv zeta. now rewrite !append_assoc.
    + apply (read_literal_escape _ (" Tj" ++ nl)).
Qed.

(* ------------------------------------------------------------------ *)
(** ** The frame of the document *)

(** X17. The output starts with the version header, ends with the
    end-of-file marker, declares one more entry than there are objects as
    its [/Size], and the number after [startxref] is the offset in the
    output at which the xref section starts. *)
Theorem pdf_frame (pages : list PageSpec) :
  let pdf := assemble pages in
  let size := 3 + 2 * List.length pages + 1 in
  String.substring 0 9 pdf = "%PDF-1.4" ++ nl /\
  (exists front,
     pdf = front ++ "trailer" ++ nl
           ++ "<< /Size " ++ show_nat size ++ " /Root 1 0 R >>" ++ nl
           ++ "startxref" ++ nl
           ++ show_nat (xref_start pages) ++ nl
           ++ "%%EOF" ++ nl) /\
  decimal_value (show_nat (xref_start pages)) = Z.of_nat (xref_start pages) /\
  String.substring (xref_start pages) 5 pdf = "xref" ++ nl.
Proof.
  intros pdf size. unfold pdf.
  pose proof (assemble_spec pages) as Hpdf. cbv zeta in Hpdf.
  split; [|split; [|split]].
  - rewrite Hpdf. unfold pdf_body. rewrite !append_assoc.
    apply (substring_prefix ("%PDF-1.4" ++ nl)).
  - exists (pdf_body pages
            ++ "xref" ++ nl
            ++ "0 " ++ show_nat size ++ nl
            ++ "0000000000 65535 f " ++ nl
            ++ concat_all
                 (map (fun i => xref_entry (Z.of_nat (object_offset pages i)))
                      (seq 1 (3 + 2 * List.length pages)))).
    rewrite Hpdf. unfold xref_start, size.
    now rewrite !append_assoc.
  - unfold show_nat.
    destruct (show_int_spec (Z.of_nat (xref_start pages)) ltac:(lia))
      as (k & _ & _ & _ & _ & Hread).
    unfold decimal_value. rewrite Hread. lia.
  - rewrite Hpdf. unfold xref_start.
    change ("xref" ++ nl ++ ?rest) with (("xref" ++ nl) ++ rest).
    apply (substring_middle (pdf_body pages) ("xref" ++ nl)).
Qed.

Lemma concat_all_length_le (l : list string) (k : nat) :
  String.length (concat_all (firstn k l)) <= String.length (concat_all l).
Proof.
  revert k. induction l as [|x l IH]; intros [|k]; cbn [firstn concat_all];
    rewrite ?length_append; cbn [String.length]; try lia.
  specialize (IH k). lia.
Qed.

Lemma object_offset_le (pages : list PageSpec) (i : nat) :
  object_offset pages i <= String.length (assemble pages).
Proof.
  pose proof (assemble_spec pages) as Hpdf. cbv zeta in Hpdf.
  rewrite Hpdf, length_append. unfold object_offset, pdf_body.
  rewrite !length_append.
  pose proof (concat_all_length_le (skipn 1 (build_objects pages)) (i - 1)).
  lia.
Qed.

Lemma concat_all_uniform (f : nat -> string) (w : nat) (l : list nat) :
  (forall k, In k l -> String.length (f k) = w) ->
  String.length (concat_all (map f l)) = w * List.length l.
Proof.
  induction l as [|a l IH]; intros H; cbn [map concat_all List.length].
  - cbn. lia.
  - rewrite length_append, (H a) by now left.
    rewrite IH by (intros k Hk; apply H; now right). lia.
Qed.

Lemma xref_entry_length (offset : Z) :
  (0 <= offset < 10 ^ 10)%Z -> String.length (xref_entry offset) = 20.
Proof.
  intros H. unfold xref_entry. rewrite length_append.
  rewrite setw_fill0_length; [reflexivity | discriminate|].
  change (Z.of_nat 10) with 10%Z. exact H.
Qed.

(** X18. As long as the output is shorter than 10^10 bytes, the xref
    table can be read by position: its entries are 20 bytes each, the one
    of object [i] is found 20 * i bytes into the table, behind the entry of
    the free object 0, and its first ten characters are the offset of
    object [i]. *)
Theorem xref_by_position (pages : list PageSpec) (i : nat) :
  let pdf := assemble pages in
  (Z.of_nat (String.length pdf) < 10 ^ 10)%Z ->
  1 <= i <= 3 + 2 * List.length pages ->
  String.substring (xref_table pages) 20 pdf = "0000000000 65535 f " ++ nl /\
  String.substring (xref_table pages + 20 * i) 20 pdf
  = setw_fill0 10 (show_int (Z.of_nat (object_offset pages i)))
    ++ " 00000 n " ++ nl /\
  String.length (setw_fill0 10 (show_int (Z.of_nat (object_offset pages i))))
  = 10 /\
  decimal_value (setw_fill0 10 (show_int (Z.of_nat (object_offset pages i))))
  = Z.of_nat (object_offset pages i).
Proof.
  intros pdf Hshort Hi. unfold pdf in *.
  set (n := 3 + 2 * List.length pages) in *.
  set (entry := fun k => xref_entry (Z.of_nat (object_offset pages k))).
  assert (Hoff : forall k, (0 <= Z.of_nat (object_offset pages k) < 10 ^ 10)%Z).
  { intros k. pose proof (object_offset_le pages k). lia. }
  assert (Hlen : forall k, String.length (entry k) = 20)
    by (intros k; apply xref_entry_length, Hoff).
  pose proof (assemble_spec pages) as Hpdf. cbv zeta in Hpdf.
  fold n in Hpdf. fold entry in Hpdf.
  set (head := "xref" ++ nl ++ "0 " ++ show_nat (n + 1) ++ nl).
  set (free := "0000000000 65535 f " ++ nl).
  assert (Hseq : seq 1 n = (seq 1 (i - 1) ++ i :: seq (S i) (n - i))%list).
  { replace n with ((i - 1) + S (n - i)) at 1 by lia.
    rewrite seq_app. cbn [seq]. repeat f_equal; lia. }
  set (before := concat_all (map entry (seq 1 (i - 1)))).
  assert (Hshape : exists tail,
             assemble pages
             = (((pdf_body pages ++ head) ++ free) ++ before) ++ entry i ++ tail).
  { eexists. rewrite Hpdf, Hseq, map_app, concat_all_app.
    cbn [map concat_all]. unfold head, free, before.
    rewrite !append_assoc. reflexivity. }
  destruct Hshape as (tail & Hshape).
  assert (Htable : xref_table pages = String.length (pdf_body pages ++ head)).
  { unfold xref_table, xref_start, head, n.
    rewrite (length_append (pdf_body pages)). reflexivity. }
  assert (Hbefore : String.length before = 20 * (i - 1)).
  { unfold before.
    rewrite (concat_all_uniform entry 20) by (intros k _; apply Hlen).
    now rewrite length_seq. }
  split; [|split; [|split]].
  - rewrite Hshape, Htable.
    rewrite (append_assoc (pdf_body pages ++ head) free before).
    rewrite (append_assoc (pdf_body pages ++ head) (free ++ before)).
    rewrite (append_assoc free before).
    apply (substring_middle (pdf_body pages ++ head) free).
  - rewrite Hshape, Htable.
    replace (String.length (pdf_body pages ++ head) + 20 * i)
      with (String.length (((pdf_body pages ++ head) ++ free) ++ before)).
    + rewrite <- (Hlen i) at 1. apply substring_middle.
    + rewrite (length_append _ before), (length_append _ free), Hbefore.
      change (String.length free) with 20. lia.
  - apply setw_fill0_length; [discriminate|].
    change (Z.of_nat 10) with 10%Z. apply Hoff.
  - apply setw_fill0_value. lia.
Qed.

Lemma xref_by_position_witness :
  String.substring
    (xref_table (parse_text ("[p]" ++ nl ++ "Hello") []) + 20 * 4) 20
    (assemble (parse_text ("[p]" ++ nl ++ "Hello") []))
  = "0000000193 00000 n " ++ nl.
Proof.
  assert (Hshort : (Z.of_nat (String.length
                                (assemble (parse_text ("[p]" ++ nl ++ "Hello") [])))
                    < 10 ^ 10)%Z) by (vm_compute; reflexivity).
  destruct (xref_by_position (parse_text ("[p]" ++ nl ++ "Hello") []) 4 Hshort
              (conj (le_S _ _ (le_S _ _ (le_S _ _ (le_n 1))))
                    (le_S _ _ (le_n 4))))
    as (_ & Hentry & _).
  exact Hentry.
Defined.

Lemma int32_wrap_high (z : Z) :
  (2 ^ 31 <= z < 2 ^ 32)%Z -> Int32.wrap z = (z - 2 ^ 32)%Z.
Proof.
  intros H. unfold Int32.wrap, Int32.modulus, Int32.max_int. cbv zeta.
  change (2 ^ 32)%Z with 4294967296%Z in *.
  change (2 ^ 31)%Z with 2147483648%Z in *.
  rewrite Z.mod_small by lia.
  destruct (Z.leb_spec z (2147483648 - 1)); lia.
Qed.

(** X19. The [/Length] a content stream declares is the number of bytes
    between [stream] and [endstream] as long as the content is shorter than
    2^31 bytes, and the content lies in the object right behind the line
    [stream]; from 2^31 bytes on the declared length is cut to an [int],
    and is negative up to 2^32. *)
Theorem content_length_declared (contentObjNum : nat) (content : string) :
  let size := Z.of_nat (String.length content) in
  let front declared :=
    show_nat contentObjNum ++ " 0 obj" ++ nl
    ++ "<< /Length " ++ show_int declared ++ " >>" ++ nl ++ "stream" ++ nl in
  let back := nl ++ "endstream" ++ nl ++ "endobj" ++ nl in
  ((size < 2 ^ 31)%Z ->
   content_object contentObjNum content = front size ++ content ++ back /\
   decimal_value (show_int size) = size /\
   String.substring (String.length (front size)) (String.length content)
     (content_object contentObjNum content) = content) /\
  ((2 ^ 31 <= size < 2 ^ 32)%Z ->
   content_object contentObjNum content
   = front (size - 2 ^ 32)%Z ++ content ++ back /\
   (size - 2 ^ 32 < 0)%Z).
Proof.
  intros size front back. unfold content_object. cbv zeta. fold size. split.
  - intros Hsmall.
    rewrite int32_wrap_small
      by (unfold size; change (2 ^ 31)%Z with 2147483648%Z in *; lia).
    assert (Hshape : show_nat contentObjNum ++ " 0 obj" ++ nl
                     ++ "<< /Length " ++ show_int size ++ " >>" ++ nl
                     ++ "stream" ++ nl ++ content ++ nl ++ "endstream" ++ nl
                     ++ "endobj" ++ nl
                     = front size ++ content ++ back).
    { unfold front, back. now rewrite !append_assoc. }
    split; [exact Hshape|]. split.
    + destruct (show_int_spec size ltac:(unfold size; lia))
        as (k & _ & _ & _ & _ & Hread).
      unfold decimal_value. rewrite Hread. lia.
    + rewrite Hshape. apply substring_middle.
  - intros Hbig. rewrite int32_wrap_high by exact Hbig.
    split; [|change (2 ^ 32)%Z with 4294967296%Z in *; lia].
    unfold front, back. now rewrite !append_assoc.
Qed.

Lemma content_length_declared_witness :
  content_object 5 ("BT" ++ nl ++ "ET" ++ nl)
  = "5 0 obj" ++ nl ++ "<< /Length 6 >>" ++ nl ++ "stream" ++ nl
    ++ "BT" ++ nl ++ "ET" ++ nl ++ nl ++ "endstream" ++ nl ++ "endobj" ++ nl.
Proof.
  destruct (content_length_declared 5 ("BT" ++ nl ++ "ET" ++ nl)) as [Hsmall _].
  destruct (Hsmall ltac:(vm_compute; reflexivity)) as (Hshape & _).
  exact Hshape.
Defined.



(* ------------------------------------------------------------------ *)
(** ** The x of a line *)

Lemma round24_small (z : Z) :
  (Z.abs z < 2 ^ 24)%Z -> F32.round24 z = z.
Proof.
  intros H. unfold F32.round24. cbv zeta.
  destruct (Z.ltb_spec (Z.abs z) (2 ^ 24)); [reflexivity | lia].
Qed.

(** The width the program takes a text for, counted in quarters:
    half the font size for each character. *)
Lemma text_width_quarters (size : Z) (n : nat) :
  (0 <= size)%Z -> (8 * size < 2 ^ 24)%Z -> (4 * Z.of_nat n < 2 ^ 24)%Z ->
  (8 * size * Z.of_nat n < 2 ^ 24)%Z ->
  F32.mul (F32.mul (F32.of_int size) F32.one_half) (F32.of_int (Z.of_nat n))
  = F32.of_quarters (2 * size * Z.of_nat n).
Proof.
  intros Hsize Hs Hn Hprod.
  unfold F32.mul, F32.of_int, F32.one_half. cbn [F32.quarters].
  rewrite (round24_small (4 * size)) by lia.
  rewrite (round24_small (4 * size * 2)) by lia.
  replace (4 * size * 2 / 4)%Z with (2 * size)%Z
    by (apply Z.div_unique_exact; lia).
  rewrite (round24_small (4 * Z.of_nat n)) by lia.
  rewrite (round24_small (2 * size * (4 * Z.of_nat n))) by nia.
  f_equal. symmetry. apply Z.div_unique_exact; lia.
Qed.

(** X21. Where a line is put across the page, for sizes and lengths in
    the exact range of a float.  The text is taken to be
    w = fontSize * 0.5 * length wide.  A centred line has its middle in the
    middle of the page (x = 306 - w / 2) and a right-aligned line ends at
    the right margin (x = 540 - w), unless that would start left of the
    left margin: the line then starts at 72 and runs over on the right.
    The x is given in quarters of a unit. *)
Theorem x_of_alignment (ls : LineSpec) (y0 : F32.f32) :
  let n := Z.of_nat (String.length (text ls)) in
  (0 <= fontSize ls)%Z ->
  (8 * fontSize ls < 2 ^ 24)%Z ->
  (4 * n < 2 ^ 24)%Z ->
  (8 * fontSize ls * n < 2 ^ 24)%Z ->
  F32.quarters (PositionedLine.x (position ls y0))
  = match align ls with
    | ALIGN_LEFT => (4 * 72)%Z
    | ALIGN_CENTER => Z.max (4 * 72) (4 * 306 - fontSize ls * n)
    | ALIGN_RIGHT => Z.max (4 * 72) (4 * 540 - 2 * fontSize ls * n)
    end.
Proof.
  intros n Hsize Hs Hn Hprod. unfold position.
  cbn [PositionedLine.x].
  rewrite (text_width_quarters (fontSize ls) (String.length (text ls)))
    by assumption.
  fold n.
  change (2 ^ 24)%Z with 16777216%Z in *.
  unfold computeX, pageWidth, rightMargin, leftMargin, F32.sub, F32.div2,
    F32.ltb, F32.whole.
  cbn [F32.quarters].
  assert (Hnn : (0 <= fontSize ls * n)%Z) by (unfold n; nia).
  destruct (align ls).
  - reflexivity.
  - rewrite round24_small
      by (change (2 ^ 24)%Z with 16777216%Z; lia).
    replace ((4 * 612 - 2 * fontSize ls * n) / 2)%Z
      with (4 * 306 - fontSize ls * n)%Z
      by (apply Z.div_unique_exact; lia).
    destruct (Z.ltb_spec (4 * 306 - fontSize ls * n) (4 * 72));
      cbn [F32.quarters]; lia.
  - rewrite (round24_small (4 * 612 - 4 * 72))
      by (change (2 ^ 24)%Z with 16777216%Z; lia).
    rewrite round24_small
      by (change (2 ^ 24)%Z with 16777216%Z; lia).
    destruct (Z.ltb_spec (4 * 612 - 4 * 72 - 2 * fontSize ls * n) (4 * 72));
      cbn [F32.quarters]; lia.
Qed.

Lemma x_of_alignment_witness :
  F32.quarters
    (PositionedLine.x
       (position
          (mkLineSpec "Hello" 14 (F32.whole 1) (F32.whole 0) (F32.whole 0)
             ALIGN_CENTER false)
          (F32.whole 750)))
  = 1154%Z.
Proof.
  apply (x_of_alignment
           (mkLineSpec "Hello" 14 (F32.whole 1) (F32.whole 0) (F32.whole 0)
              ALIGN_CENTER false) (F32.whole 750));
    cbn; lia.
Defined.

(* ------------------------------------------------------------------ *)
(** ** Text lines *)

(** X22. A line that is neither blank nor a directive, once its comment
    is stripped and the rest trimmed, is a text line: inside a page it adds
    one line to the page, made of the stripped text and of the style as it
    stands, and changes nothing else; outside a page it is dropped. *)
Theorem text_line_appended (st : ParseState) (raw : string) :
  stripped raw <> "" ->
  starts_with "[" (stripped raw) = false ->
  (inPage st = true ->
   parse_line st raw =
   mkParseState (pages st) true
     (mkPageSpec
        (lines (currentPage st)
         ++ [mkLineSpec (stripped raw) (currentFontSize st)
               (currentR st) (currentG st) (currentB st)
               (currentAlign st) (currentBottomAnchor st)]))
     (currentFontSize st) (currentR st) (currentG st) (currentB st)
     (currentAlign st) (currentBottomAnchor st)) /\
  (inPage st = false -> parse_line st raw = st).
Proof.
  intros Hne Hstart. rewrite parse_line_cases. cbv zeta. rewrite Hstart.
  destruct (stripped raw) as [|c rest]; [contradiction|]. cbn [empty].
  split; intros Hin; rewrite Hin; [|reflexivity].
  unfold with_line. now rewrite Hin.
Qed.

Lemma text_line_appended_witness :
  lines (currentPage
           (parse_line (parse_line (initial_state []) "[p] 14, red")
              "  Hello (world)  // greeting"))
  = [mkLineSpec "Hello (world)" 14 (F32.whole 1) (F32.whole 0) (F32.whole 0)
       ALIGN_LEFT false].
Proof.
  destruct (text_line_appended
              (parse_line (initial_state []) "[p] 14, red")
              "  Hello (world)  // greeting"
              ltac:(discriminate) eq_refl) as [Hin _].
  rewrite (Hin eq_refl). reflexivity.
Defined.

(* ------------------------------------------------------------------ *)
(** ** Comments *)

Lemma prefix_of_prefix (t : string) :
  forall s p,
    String.substring 0 (String.length t) (String.substring 0 p s) = t ->
    String.substring 0 (String.length t) s = t.
Proof.
  induction t as [|b t IH]; intros s p H.
  - cbn. destruct s; reflexivity.
  - destruct s as [|a s]; [destruct p; discriminate H|].
    destruct p as [|p]; [discriminate H|].
    cbn [String.length String.substring] in *.
    injection H as -> H. f_equal. exact (IH _ _ H).
Qed.

Lemma substring_of_prefix (t : string) (s : string) :
  forall m p,
    t <> "" ->
    String.substring m (String.length t) (String.substring 0 p s) = t ->
    String.substring m (String.length t) s = t /\ m < p.
Proof.
  induction s as [|a s IH]; intros m p Hne H.
  - exfalso. apply Hne. rewrite <- H.
    destruct p; cbn; destruct m; destruct (String.length t); reflexivity.
  - destruct p as [|p].
    + exfalso. apply Hne. rewrite <- H.
      cbn; destruct m; destruct (String.length t); reflexivity.
    + destruct m as [|m].
      * split; [|lia].
        apply (prefix_of_prefix t (String a s) (S p)). exact H.
      * cbn [String.substring] in H |- *.
        destruct (IH m p Hne H) as [Hs Hm]. split; [exact Hs | lia].
Qed.

Lemma substring_append_left (s back : string) :
  forall m u,
    String.substring m (String.length u) s = u ->
    String.substring m (String.length u) (s ++ back) = u.
Proof.
  induction s as [|a s IH]; intros m u H.
  - assert (Hu : u = "").
    { rewrite <- H. destruct m; destruct (String.length u); reflexivity. }
    subst u. cbn. apply substring_zero_length.
  - destruct m as [|m].
    + destruct u as [|b u]; [reflexivity|].
      cbn [String.length String.substring append] in *.
      injection H as -> H. f_equal. now apply IH.
    + cbn [String.substring append] in *. now apply IH.
Qed.

Lemma substring_append_right (front s : string) (m k : nat) :
  String.substring (String.length front + m) k (front ++ s)
  = String.substring m k s.
Proof.
  induction front as [|a front IH]; [reflexivity|]. exact IH.
Qed.

Lemma find_in_middle (pat front s back : string) :
  pat <> "" -> find pat (front ++ s ++ back) = None -> find pat s = None.
Proof.
  intros Hne Hnone. unfold find in *.
  destruct (String.index 0 pat s) as [m|] eqn:Hfound; [|reflexivity].
  exfalso. apply String.index_correct1 in Hfound.
  apply (String.index_correct3 0 (String.length front + m) _ _ Hnone Hne);
    [lia|].
  rewrite substring_append_right. now apply substring_append_left.
Qed.

(** What is left of a line once the comment is stripped holds no comment
    marker. *)
Lemma stripped_no_comment (raw : string) : find "//" (stripped raw) = None.
Proof.
  assert (Hbefore : find "//" (beforeComment raw) = None).
  { unfold beforeComment, commentPos.
    destruct (find "//" raw) as [p|] eqn:Hp; [|exact Hp].
    unfold find in *.
    destruct (String.index 0 "//" (String.substring 0 p raw)) as [m|] eqn:Hm;
      [|reflexivity].
    exfalso. apply String.index_correct1 in Hm.
    destruct (substring_of_prefix "//" raw m p ltac:(discriminate) Hm)
      as [Hraw Hlt].
    exact (String.index_correct2 0 p _ _ Hp m ltac:(lia) Hlt Hraw). }
  unfold stripped. rewrite Trim_rtrim.
  destruct (skip_spaces_front (beforeComment raw)) as (front & Hs & _).
  destruct (rtrim_back (skip_spaces (beforeComment raw))) as (back & Ht & _).
  apply (find_in_middle "//" front _ back); [discriminate|].
  now rewrite <- Ht, <- Hs.
Qed.

Lemma subseq_in {A : Type} (l2 : list A) :
  forall l1 x, subseq l1 l2 -> In x l1 -> In x l2.
Proof.
  induction l2 as [|y l2 IH]; intros l1 x H Hin; cbn [subseq] in H.
  - subst l1. contradiction.
  - destruct H as [H | H]; [right; exact (IH _ _ H Hin)|].
    destruct l1 as [|a l1]; [contradiction|]. destruct H as [-> H].
    destruct Hin as [<- | Hin]; [now left | right; exact (IH _ _ H Hin)].
Qed.

(** X23. No text of a parsed line holds the comment marker: whatever
    follows the first two slashes of a line of the file is cut off, inside
    a text as well (so the rest of an address such as http://... is
    lost), and no text starts or ends with white space. *)
Theorem texts_without_comment (contents : string) :
  Forall (fun l =>
            find "//" (text l) = None /\
            Trim (text l) = text l)
    (flat_map lines (parse_text contents [])).
Proof.
  apply Forall_forall. intros l Hl.
  assert (Hin : In (text l) (map stripped (getlines contents ""))).
  { apply (subseq_in _ _ _ (parsed_texts_subseq contents)).
    now apply in_map. }
  apply in_map_iff in Hin as (raw & Hraw & _). rewrite <- Hraw.
  split; [apply stripped_no_comment | apply Trim_fixed].
Qed.
